(** * DDPG agent glue code ([ddpg.py]): a shallow embedding and its properties

    The file [4_003_Project_Collaboration_Competition/ddpg.py] defines three
    classes: [DDGP] (the agent), [OUNoise] (the exploration noise) and
    [ReplayBuffer] (the experience memory).  They are embedded here as
    records and functions, with Python's exceptions as an error type and the
    mutable objects (torch parameters, the [random] generator, the files
    written by [torch.save], the module's global names) as an explicit
    world that is passed along.

    Numbers.  numpy and torch scalars are modelled by [Float.t]: a rational,
    an infinity or NaN.  Comparisons are the IEEE ones (every comparison
    with NaN is false); arithmetic is exact on rationals, so rounding is not
    modelled.  Arrays and tensors are flat lists of such scalars. *)

From Stdlib Require Import ZArith NArith QArith List String Ascii Bool Lia.
From Stdlib Require Import DecimalString DecimalPos DecimalZ Lqa.
From stdpp Require Import base gmap strings list.

Local Open Scope string_scope.
Local Open Scope list_scope.
Local Open Scope Z_scope.

(** ** Scalars *)

Module Float.

Inductive t : Type :=
| NaN
| NInf
| Fin (q : Q)
| PInf.

Definition isnan (x : t) : bool :=
  match x with NaN => true | _ => false end.

(** [x < y] and [x <= y] as numpy and Python evaluate them. *)
Definition ltb (x y : t) : bool :=
  match x, y with
  | NaN, _ | _, NaN => false
  | _, NInf => false
  | NInf, _ => true
  | PInf, _ => false
  | Fin _, PInf => true
  | Fin a, Fin b => match (a ?= b)%Q with Lt => true | _ => false end
  end.

Definition leb (x y : t) : bool :=
  match x, y with
  | NaN, _ | _, NaN => false
  | NInf, _ => true
  | _, PInf => true
  | _, NInf => false
  | PInf, _ => false
  | Fin a, Fin b => match (a ?= b)%Q with Gt => false | _ => true end
  end.

Definition opp (x : t) : t :=
  match x with
  | NaN => NaN
  | NInf => PInf
  | PInf => NInf
  | Fin a => Fin (- a)%Q
  end.

Definition add (x y : t) : t :=
  match x, y with
  | NaN, _ | _, NaN => NaN
  | PInf, NInf | NInf, PInf => NaN
  | PInf, _ | _, PInf => PInf
  | NInf, _ | _, NInf => NInf
  | Fin a, Fin b => Fin (a + b)%Q
  end.

Definition sub (x y : t) : t := add x (opp y).

(** The product of an infinity and a rational: NaN at zero, else signed. *)
Definition scale_inf (positive : bool) (a : Q) : t :=
  match (a ?= 0)%Q with
  | Eq => NaN
  | Gt => if positive then PInf else NInf
  | Lt => if positive then NInf else PInf
  end.

Definition mul (x y : t) : t :=
  match x, y with
  | NaN, _ | _, NaN => NaN
  | Fin a, Fin b => Fin (a * b)%Q
  | PInf, Fin a | Fin a, PInf => scale_inf true a
  | NInf, Fin a | Fin a, NInf => scale_inf false a
  | PInf, PInf | NInf, NInf => PInf
  | PInf, NInf | NInf, PInf => NInf
  end.

Definition of_Z (z : Z) : t := Fin (inject_Z z).

(** [lo <= x <= hi]. *)
Definition between (lo hi x : t) : Prop :=
  leb lo x = true /\ leb x hi = true.

End Float.

Declare Scope float_scope.
Delimit Scope float_scope with float.
Bind Scope float_scope with Float.t.
Infix "+" := Float.add : float_scope.
Infix "-" := Float.sub : float_scope.
Infix "*" := Float.mul : float_scope.

Abbreviation array := (list Float.t).
Abbreviation tensor := (list Float.t).

(** ** Exceptions and the state-and-error monad *)

(** The exceptions the code can meet.  [LibraryError] stands for whatever
    numpy or torch raise; the others are raised by the interpreter or by
    Python's own standard library on behalf of the code in [ddpg.py]. *)
Inductive PyErr : Type :=
| AttributeError (class_name attribute : string)
| NameError (name : string)
| ZeroDivisionError
| ValueError (message : string)
| LibraryError (message : string).

Definition is_library_error (e : PyErr) : bool :=
  match e with LibraryError _ => true | _ => false end.

(** A computation over a mutable state [S]: an exception keeps the state
    as it was when it was raised. *)
Definition M (S A : Type) : Type := S -> (PyErr + A) * S.

Definition ret {S A} (a : A) : M S A := fun s => (inr a, s).
Definition raise {S A} (e : PyErr) : M S A := fun s => (inl e, s).
Definition bind {S A B} (m : M S A) (k : A -> M S B) : M S B :=
  fun s => match m s with
           | (inl e, s') => (inl e, s')
           | (inr a, s') => k a s'
           end.
Definition get {S} : M S S := fun s => (inr s, s).
Definition gets {S A} (f : S -> A) : M S A := fun s => (inr (f s), s).
Definition modify {S} (f : S -> S) : M S unit := fun s => (inr tt, f s).
Definition lift_result {S A} (r : PyErr + A) : M S A := fun s => (r, s).

(** Run a computation on a part [T] of the state [S]. *)
Definition zoom {S T A} (proj : S -> T) (upd : T -> S -> S) (m : M T A) : M S A :=
  fun s => let '(r, t') := m (proj s) in (r, upd t' s).

Notation "'do' x <- m ; k" := (bind m (fun x => k))
  (at level 10, x name, m at level 100, k at level 200).
Notation "'do' ' pat <- m ; k" := (bind m (fun x => match x with pat => k end))
  (at level 10, pat pattern, m at level 100, k at level 200).
Notation "'run' m ; k" := (bind m (fun _ => k))
  (at level 10, m at level 100, k at level 200).

Fixpoint for_each {S A} (xs : list A) (body : A -> M S unit) : M S unit :=
  match xs with
  | [] => ret tt
  | x :: xs' => run body x; for_each xs' body
  end.

(** ** [collections.deque] with a [maxlen] *)

Module Deque.

Record t (A : Type) : Type := mk { maxlen : nat; items : list A }.
Arguments mk {A}.
Arguments maxlen {A}.
Arguments items {A}.

Definition new {A} (maxlen : nat) : t A := mk maxlen [].

(** [append]: the item goes to the right end; a deque that has grown past
    [maxlen] drops its leftmost item. *)
Definition append {A} (d : t A) (x : A) : t A :=
  let grown := items d ++ [x] in
  mk (maxlen d) (if (maxlen d <? length grown)%nat then tail grown else grown).

Definition len {A} (d : t A) : nat := length (items d).

End Deque.

(** ** Python's [random] module *)

Module Random.

(** The generator is the sequence of its future 53-bit outputs;
    [random.seed] chooses the sequence (see [Library] below). *)
Definition Rng : Type := nat -> N.

Definition resolution : N := 2 ^ 53.

(** The float made from a 53-bit output [k]: exactly [k / 2^53]. *)
Definition unit_float (k : N) : Float.t :=
  Float.Fin (Z.of_N (k mod resolution) # 2 ^ 53).

Definition advance (g : Rng) : Rng := fun i => g (S i).

(** [random.seed(a)]: [twister a] is the output sequence of the generator
    seeded with [a]. *)
Definition seed (twister : Z -> Rng) (a : Z) : M Rng unit :=
  fun _ => (inr tt, twister a).

(** [random.random()]: the next float of the half-open interval [0, 1). *)
Definition random : M Rng Float.t :=
  fun g => (inr (unit_float (g 0%nat)), advance g).

(** An integer below [n], for [n > 0]: some number of that range, taken
    here from one output of the generator (CPython draws bits and rejects
    those out of range; which number comes out is not used below). *)
Definition randbelow (n : nat) : M Rng nat :=
  fun g => (inr (N.to_nat (g 0%nat) mod n)%nat, advance g).

(** [[random.random() for i in range(n)]] *)
Fixpoint randoms (n : nat) : M Rng (list Float.t) :=
  match n with
  | O => ret []
  | S n' => do r <- random; do rs <- randoms n'; ret (r :: rs)
  end.

(** The selection loop of [random.sample]: [k] rounds over a pool of which
    the first [n] slots are live; round [i] takes slot [j = randbelow(n - i)]
    and moves the last live slot into it. *)
Fixpoint select {A} (k : nat) (pool : list A) : M Rng (list A) :=
  match k with
  | O => ret []
  | S k' =>
      do j <- randbelow (length pool);
      match pool !! j, last pool with
      | Some x, Some y =>
          do rest <- select k' (removelast (<[j := y]> pool)); ret (x :: rest)
      | _, _ => ret []
      end
  end.

(** [random.sample(population, k)] *)
Definition sample {A} (population : list A) (k : Z) : M Rng (list A) :=
  if (0 <=? k) && (k <=? Z.of_nat (length population))
  then select (Z.to_nat k) population
  else raise (ValueError "Sample larger than population or is negative").

End Random.

(** ** numpy on flat arrays *)

Module Numpy.

Definition ones (size : nat) : array := repeat (Float.of_Z 1) size.

(** A scalar times an array. *)
Definition scale (c : Float.t) (a : array) : array := map (Float.mul c) a.

(** A binary operation on two arrays, with the broadcasting of an array
    of length one (torch broadcasts its tensors the same way). *)
Definition elementwise (f : Float.t -> Float.t -> Float.t) (a b : array)
  : PyErr + array :=
  if (length a =? length b)%nat then inr (zip_with f a b)
  else match a, b with
       | [x], _ => inr (map (f x) b)
       | _, [y] => inr (map (fun x => f x y) a)
       | _, _ => inl (LibraryError "operands could not be broadcast together")
       end.

(** The in-place [a += b]: the result must have the shape of [a]. *)
Definition iadd (a b : array) : PyErr + array :=
  if (length a =? length b)%nat then inr (zip_with Float.add a b)
  else match b with
       | [y] => inr (map (fun x => Float.add x y) a)
       | _ => inl (LibraryError "non-broadcastable output operand")
       end.

(** [np.maximum] and [np.minimum] on scalars: a NaN first operand is
    returned as it is. *)
Definition maximum (x y : Float.t) : Float.t :=
  if Float.isnan x || Float.ltb y x then x else y.
Definition minimum (x y : Float.t) : Float.t :=
  if Float.isnan x || Float.ltb x y then x else y.

(** [np.clip(a, a_min, a_max)] *)
Definition clip (a : array) (a_min a_max : Float.t) : array :=
  map (fun x => minimum (maximum x a_min) a_max) a.

(** [np.vstack] of rows: a matrix, as the list of its rows. *)
Definition vstack (rows : list array) : PyErr + list array :=
  match rows with
  | [] => inl (LibraryError "need at least one array to concatenate")
  | r :: rs =>
      if forallb (fun r' => (length r' =? length r)%nat) rs then inr rows
      else inl (LibraryError "all the input array dimensions must match")
  end.

End Numpy.

(** ** The replay buffer *)

(** [namedtuple("Experience", ["state", "action", "reward", "next_state", "done"])] *)
Record Experience : Type := mkExperience {
  state : array;
  action : array;
  reward : Float.t;
  next_state : array;
  done : bool
}.

(** The five stacked tensors that [ReplayBuffer.sample] returns. *)
Record Batch : Type := mkBatch {
  states : list tensor;
  actions : list tensor;
  rewards : list tensor;
  next_states : list tensor;
  dones : list tensor
}.

Module ReplayBuffer.

(** The instance attributes.  [__init__] binds [memory], [experience] (the
    named-tuple class, a constant) and [seed] (always [None]); it binds no
    [batch_size], and neither does anything else in the file: a
    [batch_size] of [None] is the attribute not being there. *)
Record t : Type := mk {
  memory : Deque.t Experience;
  batch_size : option Z
}.

Definition init (twister : Z -> Random.Rng) (buffer_size : nat) (seed : Z)
  : M Random.Rng t :=
  run Random.seed twister seed;
  ret (mk (Deque.new buffer_size) None).

Definition add (self : t) (state action : array) (reward : Float.t)
  (next_state : array) (done : bool) : t :=
  let e := mkExperience state action reward next_state done in
  mk (Deque.append (memory self) e) (batch_size self).

Definition len (self : t) : nat := Deque.len (memory self).

(** [add] called with the fields of [e], and with those of each of [es] in turn. *)
Definition add_experience (self : t) (e : Experience) : t :=
  add self (state e) (action e) (reward e) (next_state e) (done e).
Definition add_all (self : t) (es : list Experience) : t :=
  fold_left add_experience es self.

Definition uint8 (b : bool) : Float.t := Float.of_Z (if b then 1 else 0).

Definition sample (self : t) : M Random.Rng Batch :=
  match batch_size self with
  | None => raise (AttributeError "ReplayBuffer" "batch_size")
  | Some k =>
      do experiences <- Random.sample (Deque.items (memory self)) k;
      do states <- lift_result (Numpy.vstack (map state experiences));
      do actions <- lift_result (Numpy.vstack (map action experiences));
      do rewards <- lift_result (Numpy.vstack (map (fun e => [reward e]) experiences));
      do next_states <- lift_result (Numpy.vstack (map next_state experiences));
      do dones <- lift_result (Numpy.vstack (map (fun e => [uint8 (done e)]) experiences));
      ret (mkBatch states actions rewards next_states dones)
  end.

End ReplayBuffer.

(** ** The exploration noise *)

Module OUNoise.

Record t : Type := mk {
  mu : array;
  theta : Float.t;
  sigma : Float.t;
  state : array
}.

(** [self.state = copy.copy(self.mu)] *)
Definition reset (self : t) : t :=
  mk (mu self) (theta self) (sigma self) (mu self).

Definition init (twister : Z -> Random.Rng) (size : nat) (seed : Z)
  (mu theta sigma : Float.t) : M Random.Rng t :=
  run Random.seed twister seed;
  ret (reset (mk (Numpy.scale mu (Numpy.ones size)) theta sigma [])).

Definition set_state (x : array) (self : t) : t :=
  mk (mu self) (theta self) (sigma self) x.

(** [sample]: the state of the pair is the noise object and the generator. *)
Definition sample : M (t * Random.Rng) array :=
  do self <- gets fst;
  let x := state self in
  do d <- lift_result (Numpy.elementwise Float.sub (mu self) x);
  do w <- zoom snd (fun g s => (fst s, g)) (Random.randoms (length x));
  do dx <- lift_result (Numpy.elementwise Float.add
                          (Numpy.scale (theta self) d) (Numpy.scale (sigma self) w));
  do x' <- lift_result (Numpy.elementwise Float.add x dx);
  run modify (fun s => (set_state x' (fst s), snd s));
  ret x'.

End OUNoise.

(** ** torch: parameters in a store, modules, optimizers *)

(** A parameter is a mutable tensor; a module holds references to its
    parameters, and two modules may hold the same one. *)
Definition loc : Type := nat.

Record Network : Type := mkNetwork {
  parameters : list loc;
  training : bool
}.

Record Optimizer : Type := mkOptimizer {
  param_group : list loc;
  lr : Float.t;
  weight_decay : Float.t;
  moments : list tensor
}.

Inductive StateDict : Type :=
| ModuleState (tensors : list tensor)
| OptimizerState (lr weight_decay : Float.t) (moments : list tensor).

Inductive PyVal : Type :=
| PyInt (z : Z)
| PyFloat (x : Float.t).

(** What the methods of the agent can reach besides the agent itself. *)
Record World : Type := mkWorld {
  heap : gmap loc tensor;
  rng : Random.Rng;
  files : gmap string (list (string * StateDict));
  globals : gmap string PyVal
}.

Definition set_heap (h : gmap loc tensor) (w : World) : World :=
  mkWorld h (rng w) (files w) (globals w).
Definition set_rng (g : Random.Rng) (w : World) : World :=
  mkWorld (heap w) g (files w) (globals w).
Definition set_files (f : gmap string (list (string * StateDict))) (w : World) : World :=
  mkWorld (heap w) (rng w) f (globals w).

Module Torch.

Definition read (l : loc) : M (gmap loc tensor) tensor :=
  fun h => match h !! l with
           | Some t => (inr t, h)
           | None => (inl (LibraryError "no such parameter"), h)
           end.

(** [p.data.copy_(src)]: [src] is broadcast to the shape of [p]. *)
Definition copy_ (l : loc) (src : tensor) : M (gmap loc tensor) unit :=
  do dst <- read l;
  if (length src =? length dst)%nat then modify (insert l src)
  else match src with
       | [y] => modify (insert l (map (fun _ => y) dst))
       | _ => raise (LibraryError "the size of the tensors must match")
       end.

(** A new module with the given initial parameter tensors, each stored at
    a location not yet in use. *)
Fixpoint allocate (ts : list tensor) : M (gmap loc tensor) (list loc) :=
  match ts with
  | [] => ret []
  | t :: ts' =>
      do h <- get;
      let l := fresh (dom h) in
      run modify (insert l t);
      do ls <- allocate ts';
      ret (l :: ls)
  end.

Definition state_dict (h : gmap loc tensor) (net : Network) : StateDict :=
  ModuleState (omap (fun l => h !! l) (parameters net)).

Definition optimizer_state_dict (o : Optimizer) : StateDict :=
  OptimizerState (lr o) (weight_decay o) (moments o).

End Torch.

(** ** [os.path.join] and [str.format] *)

Module Os.

Definition startswith_sep (s : string) : bool :=
  match s with
  | String c _ => Ascii.eqb c "/"
  | EmptyString => false
  end.

Fixpoint endswith_sep (s : string) : bool :=
  match s with
  | EmptyString => false
  | String c EmptyString => Ascii.eqb c "/"
  | String _ rest => endswith_sep rest
  end.

(** [os.path.join(a, b)] of [posixpath]. *)
Definition path_join (a b : string) : string :=
  if startswith_sep b then b
  else if String.eqb a "" || endswith_sep a then String.append a b
  else String.append a (String.append "/" b).

End Os.

(** [str] of an [int]. *)
Definition str (z : Z) : string := NilZero.string_of_int (Z.to_int z).

(** An object handed to [str.format]: an [int], a [str], or any other
    object, which is given with the text that formatting it makes. *)
Inductive PyObject : Type :=
| ObjInt (z : Z)
| ObjStr (s : string)
| ObjOther (formatted : string).

(** ['{}'.format(o)] *)
Definition format_ (o : PyObject) : string :=
  match o with
  | ObjInt z => str z
  | ObjStr s => s
  | ObjOther formatted => formatted
  end.

(** ** What the code calls and this file does not define

    The classes [Actor] and [Critic] come from the module [model], and the
    forward passes, losses, gradients and Adam steps belong to torch.
    They are parameters of the agent's model. *)

Record Library : Type := mkLibrary {
  (** the output sequence of Python's generator after [random.seed(a)] *)
  twister : Z -> Random.Rng;
  (** initial parameter tensors of [Actor(state_size, action_size, seed)]
      and of [Critic(state_size, action_size, seed)]: what is used of
      them is that two networks of one class, built with the same
      arguments, have parameters of the same shapes *)
  Actor : nat -> nat -> Z -> list tensor;
  Critic : nat -> nat -> Z -> list tensor;
  (** initial state of [optim.Adam] over the given parameters *)
  Adam : list tensor -> list tensor;
  (** [self.actor_local(state)] under [torch.no_grad()] *)
  Actor_forward : gmap loc tensor -> Network -> array -> PyErr + array;
  (** lines 142-146 of [learn]: the slices taken with the globals [agent]
      and [BATCH_SIZE] *)
  select_agent : PyVal -> PyVal -> Batch -> PyErr + Batch;
  (** lines 150-151: [critic_target(next_state, actor_target(next_state))] *)
  target_values : gmap loc tensor -> Network -> Network -> Batch -> PyErr + tensor;
  (** lines 153-171: both losses, their gradients, the clipping and the two
      optimizer steps, given [GAMMA], on the local critic and actor *)
  optimize : PyVal -> tensor -> Batch -> Network -> Network ->
             M (gmap loc tensor * Optimizer * Optimizer) unit;
  (** [torch.save(obj, path)]: the error it raises when, with these files
      present, it cannot write the file at [path] (a parent directory
      that does not exist, a path that may not be written), and [None]
      when it can *)
  torch_save_error : gmap string (list (string * StateDict)) -> string -> option PyErr
}.

(** ** The agent *)

Module DDGP.

(** The arguments of [__init__].  The sizes are natural numbers:
    [deque(maxlen=...)] and [np.ones] refuse a negative one. *)
Record Config : Type := mkConfig {
  name : string;
  state_size : nat;
  action_size : nat;
  random_seed : Z;
  buffer_size : nat;
  batch_size : Z;
  min_req_exp : Z;
  consec_learn_iter : Z;
  learn_every : Z;
  lr_actor : Float.t;
  lr_critic : Float.t;
  weight_decay : Float.t;
  tau : Float.t;
  gamma : Float.t
}.

(** The attributes that are not plain copies of an argument. *)
Record t : Type := mk {
  config : Config;
  actor_local : Network;
  actor_target : Network;
  actor_optimizer : Optimizer;
  critic_local : Network;
  critic_target : Network;
  critic_optimizer : Optimizer;
  noise : OUNoise.t;
  memory : ReplayBuffer.t;
  step_mem : Z;
  train : bool;
  exploration : Float.t
}.

Definition set_actor_local (x : Network) (a : t) : t :=
  mk (config a) x (actor_target a) (actor_optimizer a) (critic_local a)
     (critic_target a) (critic_optimizer a) (noise a) (memory a) (step_mem a)
     (train a) (exploration a).
Definition set_optimizers (critic actor : Optimizer) (a : t) : t :=
  mk (config a) (actor_local a) (actor_target a) actor (critic_local a)
     (critic_target a) critic (noise a) (memory a) (step_mem a)
     (train a) (exploration a).
Definition set_noise (x : OUNoise.t) (a : t) : t :=
  mk (config a) (actor_local a) (actor_target a) (actor_optimizer a) (critic_local a)
     (critic_target a) (critic_optimizer a) x (memory a) (step_mem a)
     (train a) (exploration a).
Definition set_memory (x : ReplayBuffer.t) (a : t) : t :=
  mk (config a) (actor_local a) (actor_target a) (actor_optimizer a) (critic_local a)
     (critic_target a) (critic_optimizer a) (noise a) x (step_mem a)
     (train a) (exploration a).
Definition set_step_mem (x : Z) (a : t) : t :=
  mk (config a) (actor_local a) (actor_target a) (actor_optimizer a) (critic_local a)
     (critic_target a) (critic_optimizer a) (noise a) (memory a) x
     (train a) (exploration a).
Definition set_train (x : bool) (a : t) : t :=
  mk (config a) (actor_local a) (actor_target a) (actor_optimizer a) (critic_local a)
     (critic_target a) (critic_optimizer a) (noise a) (memory a) (step_mem a)
     x (exploration a).
Definition set_exploration (x : Float.t) (a : t) : t :=
  mk (config a) (actor_local a) (actor_target a) (actor_optimizer a) (critic_local a)
     (critic_target a) (critic_optimizer a) (noise a) (memory a) (step_mem a)
     (train a) x.

(** A method runs on the agent and the world. *)
Definition Method (A : Type) : Type := M (t * World) A.

Definition on_self (f : t -> t) : Method unit :=
  modify (fun s => (f (fst s), snd s)).
Definition on_heap {A} (m : M (gmap loc tensor) A) : Method A :=
  zoom (fun s => heap (snd s)) (fun h s => (fst s, set_heap h (snd s))) m.
Definition on_rng {A} (m : M Random.Rng A) : Method A :=
  zoom (fun s => rng (snd s)) (fun g s => (fst s, set_rng g (snd s))) m.
Definition on_noise {A} (m : M (OUNoise.t * Random.Rng) A) : Method A :=
  zoom (fun s => (noise (fst s), rng (snd s)))
       (fun p s => (set_noise (fst p) (fst s), set_rng (snd p) (snd s))) m.
Definition on_training {A} (m : M (gmap loc tensor * Optimizer * Optimizer) A) : Method A :=
  zoom (fun s => (heap (snd s), critic_optimizer (fst s), actor_optimizer (fst s)))
       (fun p s => (set_optimizers (snd (fst p)) (snd p) (fst s),
                    set_heap (fst (fst p)) (snd s))) m.

(** Reading a global name of the module. *)
Definition load_global (x : string) : Method PyVal :=
  do w <- gets snd;
  match globals w !! x with
  | Some v => ret v
  | None => raise (NameError x)
  end.

Definition literal (q : Q) : Float.t := Float.Fin q.

Section WithLibrary.

Variable lib : Library.

Definition new_network (ts : list tensor) : M World Network :=
  do ps <- zoom heap set_heap (Torch.allocate ts);
  ret (mkNetwork ps true).

Definition new_optimizer (net : Network) (lr weight_decay : Float.t) : M World Optimizer :=
  do h <- gets heap;
  ret (mkOptimizer (parameters net) lr weight_decay
         (Adam lib (omap (fun l => h !! l) (parameters net)))).

Definition init (c : Config) : M World t :=
  run zoom rng set_rng (Random.seed (twister lib) (random_seed c));
  do actor_local <- new_network (Actor lib (state_size c) (action_size c) (random_seed c));
  do actor_target <- new_network (Actor lib (state_size c) (action_size c) (random_seed c));
  do actor_optimizer <- new_optimizer actor_local (lr_actor c) (literal 0);
  do critic_local <- new_network (Critic lib (state_size c) (action_size c) (random_seed c));
  do critic_target <- new_network (Critic lib (state_size c) (action_size c) (random_seed c));
  do critic_optimizer <- new_optimizer critic_local (lr_critic c) (weight_decay c);
  do noise <- zoom rng set_rng
                (OUNoise.init (twister lib) (action_size c) (random_seed c)
                   (literal 0) (literal 0.15) (literal 0.2));
  do memory <- zoom rng set_rng
                 (ReplayBuffer.init (twister lib) (buffer_size c) (random_seed c));
  ret (mk c actor_local actor_target actor_optimizer
          critic_local critic_target critic_optimizer
          noise memory 0 false (literal 1)).

Definition memorize (state action : array) (reward : Float.t)
  (next_tate : array) (done : bool) : Method unit :=
  on_self (fun a => set_memory (ReplayBuffer.add (memory a) state action reward next_tate done) a).

Definition soft_update (local_model target_model : Network) (tau : Float.t)
  : M (gmap loc tensor) unit :=
  for_each (zip (parameters target_model) (parameters local_model))
    (fun p =>
       let '(target_param, local_param) := p in
       do local_data <- Torch.read local_param;
       do target_data <- Torch.read target_param;
       do blended <- lift_result
                       (Numpy.elementwise Float.add
                          (Numpy.scale tau local_data)
                          (Numpy.scale (literal 1 - tau) target_data));
       Torch.copy_ target_param blended).

Definition learn : Method unit :=
  run on_self (fun a => set_exploration (exploration a * literal 0.999) a);
  do self <- gets fst;
  do experience <- on_rng (ReplayBuffer.sample (memory self));
  do agent <- load_global "agent";
  do BATCH_SIZE <- load_global "BATCH_SIZE";
  do batch <- lift_result (select_agent lib agent BATCH_SIZE experience);
  do h <- gets (fun s => heap (snd s));
  do Q_targets_next <- lift_result
                         (target_values lib h (actor_target self) (critic_target self) batch);
  do GAMMA <- load_global "GAMMA";
  run on_training (optimize lib GAMMA Q_targets_next batch
                     (critic_local self) (actor_local self));
  run on_heap (soft_update (critic_local self) (critic_target self) (tau (config self)));
  on_heap (soft_update (actor_local self) (actor_target self) (tau (config self))).

Definition trigger_learn : Method unit :=
  run on_self (set_train false);
  run on_self (fun a => set_exploration (exploration a * literal 0.975) a);
  do self <- gets fst;
  if Z.of_nat (ReplayBuffer.len (memory self)) >? batch_size (config self)
  then learn
  else ret tt.

Definition update_counter : Method unit :=
  run on_self (fun a => set_step_mem (step_mem a + 1) a);
  do self <- gets fst;
  if learn_every (config self) =? 0 then raise ZeroDivisionError
  else if step_mem self mod learn_every (config self) =? 0
       then on_self (set_train true)
       else ret tt.

Definition set_training (b : bool) (a : t) : t :=
  set_actor_local (mkNetwork (parameters (actor_local a)) b) a.

Definition act (state : array) (add_noise : bool) : Method array :=
  run on_self (set_training false);
  do s <- get;
  do action <- lift_result (Actor_forward lib (heap (snd s)) (actor_local (fst s)) state);
  run on_self (set_training true);
  do action <-
    (if add_noise
     then do sampled <- on_noise OUNoise.sample;
          do self <- gets fst;
          lift_result (Numpy.iadd action
                         (map (fun x => x * exploration self)%float sampled))
     else ret action);
  ret (Numpy.clip action (literal (-1)) (literal 1)).

Definition reset : Method unit :=
  run on_self (fun a => set_noise (OUNoise.reset (noise a)) a);
  run on_self (set_step_mem 0);
  on_self (set_train false).

Definition save_dict (a : t) (h : gmap loc tensor) : list (string * StateDict) :=
  [ ("actor_local_params", Torch.state_dict h (actor_local a));
    ("actor_target_params", Torch.state_dict h (actor_target a));
    ("actor_optim_params", Torch.optimizer_state_dict (actor_optimizer a));
    ("critic_local_params", Torch.state_dict h (critic_local a));
    ("critic_target_params", Torch.state_dict h (critic_target a));
    ("critic_optim_params", Torch.optimizer_state_dict (critic_optimizer a)) ].

Definition checkpoint_path (a : t) (save_path : string) (iteration : PyObject) : string :=
  Os.path_join save_path
    (String.append (name (config a))
       (String.append "i_episode-" (String.append (format_ iteration) ".pt"))).

(** [torch.save] writes the whole file or, when it cannot, raises and
    writes nothing. *)
Definition save (save_path : string) (iteration : PyObject) : Method unit :=
  do s <- get;
  let '(self, w) := s in
  let path := checkpoint_path self save_path iteration in
  match torch_save_error lib (files w) path with
  | Some e => raise e
  | None =>
      modify (fun s => (fst s, set_files (insert path (save_dict self (heap w)) (files w))
                                 (snd s)))
  end.

(** The calls a user of the agent can make, and a session of them.  A
    session goes on after a call that raised: the caller may catch the
    exception, and the agent is then in the state the raise left. *)
Inductive Call : Type :=
| Memorize (state action : array) (reward : Float.t) (next_tate : array) (done : bool)
| TriggerLearn
| UpdateCounter
| Act (state : array) (add_noise : bool)
| Reset
| Learn
| SoftUpdate (local_model target_model : Network) (tau : Float.t)
| Save (save_path : string) (iteration : PyObject).

Definition call (c : Call) : Method unit :=
  match c with
  | Memorize s a r s' d => memorize s a r s' d
  | TriggerLearn => trigger_learn
  | UpdateCounter => update_counter
  | Act s b => run act s b; ret tt
  | Reset => reset
  | Learn => learn
  | SoftUpdate l t tau => on_heap (soft_update l t tau)
  | Save p i => save p i
  end.

Definition session (calls : list Call) (s : t * World) : t * World :=
  fold_left (fun s c => snd (call c s)) calls s.

End WithLibrary.

End DDGP.

(** ** What every session keeps true *)

(** The replay buffer has no [batch_size], the step counter is not
    negative, and the exploration coefficient is a number of (0, 1]. *)
Definition invariant (s : DDGP.t * World) : Prop :=
  ReplayBuffer.batch_size (DDGP.memory (fst s)) = None
  /\ 0 <= DDGP.step_mem (fst s)
  /\ exists q : Q, DDGP.exploration (fst s) = Float.Fin q /\ (0 < q)%Q /\ (q <= 1)%Q.

(** The next [n] floats of the generator [g], and [g] after [n] outputs. *)
Definition next_floats (n : nat) (g : Random.Rng) : list Float.t :=
  map (fun i => Random.unit_float (g i)) (seq 0 n).
Definition skip (n : nat) (g : Random.Rng) : Random.Rng :=
  fun i => g (n + i)%nat.

(** The mean of [random.random()], its 2^53 outputs taken as equally
    likely: the sum of the floats made from 0, 1, ..., 2^53 - 1, over their
    number. *)
Definition sum_numerators (n : N) : Z :=
  N.recursion 0 (fun k acc => acc + Z.of_N (k mod Random.resolution)) n.
Definition mean_of_random : Q :=
  ((sum_numerators Random.resolution # 2 ^ 53) / inject_Z (Z.of_N Random.resolution))%Q.

(** [tau * local + (1 - tau) * target], component by component. *)
Definition blend (tau : Float.t) (local_data target_data : tensor) : tensor :=
  zip_with Float.add
    (map (Float.mul tau) local_data)
    (map (Float.mul (Float.Fin 1 - tau)) target_data).

(** The part of the agent that [act] and [soft_update] leave alone. *)
Definition bookkeeping (a : DDGP.t)
  : DDGP.Config * ReplayBuffer.t * Z * bool * Float.t :=
  (DDGP.config a, DDGP.memory a, DDGP.step_mem a, DDGP.train a, DDGP.exploration a).

(** ** A small agent to run the definitions on *)

Module Example.

(** An actor of one weight, [action = weight * state]; a critic of one
    weight; a generator whose outputs grow with the seed and the index; a
    file system in which the directory [missing] does not exist. *)
Definition lib : Library :=
  mkLibrary
    (fun a i => (Z.to_N a + N.of_nat i * 2 ^ 52)%N)
    (fun _ _ _ => [[Float.Fin (1 # 2)]])
    (fun _ _ _ => [[Float.Fin (1 # 4)]])
    (fun ts => map (map (fun _ => Float.Fin 0)) ts)
    (fun h net x =>
       match omap (fun l => h !! l) (parameters net) with
       | [[weight]] => inr (Numpy.scale weight x)
       | _ => inl (LibraryError "size mismatch")
       end)
    (fun _ _ b => inr b)
    (fun _ _ _ _ => inr [])
    (fun _ _ _ _ _ => ret tt)
    (fun _ path =>
       if String.prefix "missing/" path
       then Some (LibraryError "Parent directory missing does not exist.")
       else None).

Definition config : DDGP.Config :=
  DDGP.mkConfig "agent_0" 1 1 7 2 1 200 2 4
    (Float.Fin 1e-4) (Float.Fin 1e-3) (Float.Fin 1e-4) (Float.Fin 1e-3) (Float.Fin 0.99).

Definition world : World := mkWorld ∅ (fun _ => 0%N) ∅ ∅.

Definition made : (PyErr + DDGP.t) * World :=
  Eval vm_compute in DDGP.init lib config world.

Definition agent : DDGP.t :=
  Eval vm_compute in
    match fst made as r return (match r with inl _ => unit | inr _ => DDGP.t end) with
    | inl _ => tt
    | inr a => a
    end.

Definition world1 : World := Eval vm_compute in snd made.

Definition e1 : Experience := mkExperience [Float.Fin 1] [Float.Fin (1 # 2)] (Float.Fin 0) [Float.Fin 2] false.
Definition e2 : Experience := mkExperience [Float.Fin 2] [Float.Fin (1 # 3)] (Float.Fin 1) [Float.Fin 3] false.
Definition e3 : Experience := mkExperience [Float.Fin 3] [Float.Fin (1 # 4)] (Float.Fin 0) [Float.Fin 4] true.

(** Two experiences memorized, four steps counted, one action taken. *)
Definition calls : list DDGP.Call :=
  [ DDGP.Memorize [Float.Fin 1] [Float.Fin (1 # 2)] (Float.Fin 0) [Float.Fin 2] false;
    DDGP.UpdateCounter;
    DDGP.Memorize [Float.Fin 2] [Float.Fin (1 # 3)] (Float.Fin 1) [Float.Fin 3] false;
    DDGP.UpdateCounter; DDGP.UpdateCounter; DDGP.UpdateCounter;
    DDGP.Act [Float.Fin 3] true ].

(** A local and a target model of one parameter each. *)
Definition store : gmap loc tensor :=
  <[0%nat := [Float.Fin 1; Float.Fin 2]]> (<[1%nat := [Float.Fin 3; Float.Fin 5]]> ∅).
Definition local_model : Network := mkNetwork [0%nat] true.
Definition target_model : Network := mkNetwork [1%nat] true.

End Example.

(** ** Histories of calls *)

(** The experiences that the [memorize] calls of a session hand over, in order. *)
Definition memorized (calls : list DDGP.Call) : list Experience :=
  flat_map (fun c => match c with
                     | DDGP.Memorize s x r s' d => [mkExperience s x r s' d]
                     | _ => []
                     end) calls.

Definition is_soft_update (c : DDGP.Call) : bool :=
  match c with DDGP.SoftUpdate _ _ _ => true | _ => false end.

(** The references an agent holds into the parameter store, and its optimizers. *)
Definition wiring (a : DDGP.t)
  : list loc * list loc * list loc * list loc * Optimizer * Optimizer :=
  (parameters (DDGP.actor_local a), parameters (DDGP.actor_target a),
   parameters (DDGP.critic_local a), parameters (DDGP.critic_target a),
   DDGP.actor_optimizer a, DDGP.critic_optimizer a).

(** [n] calls of [OUNoise.sample] in a row. *)
Definition sampled (n : nat) (s : OUNoise.t * Random.Rng) : OUNoise.t * Random.Rng :=
  Nat.iter n (fun s => snd (OUNoise.sample s)) s.

(** Two stores hold tensors at the same locations, of the same lengths. *)
Definition same_shapes (h h' : gmap loc tensor) : Prop :=
  forall l, match h !! l, h' !! l with
            | Some t, Some t' => length t' = length t
            | None, None => True
            | _, _ => False
            end.


(** [Torch.allocate] took the store from [h] to [h'], putting the tensors
    [ts] at the new locations [ls]. *)
Definition allocated (h : gmap loc tensor) (ts : list tensor) (ls : list loc)
  (h' : gmap loc tensor) : Prop :=
  length ls = length ts
  /\ NoDup ls
  /\ (forall l, l ∈ ls -> h !! l = None)
  /\ (forall l, l ∉ ls -> h' !! l = h !! l)
  /\ (forall i l, ls !! i = Some l -> h' !! l = ts !! i).

(** What [soft_update] needs of two models and a store to blend every
    parameter pair: as many parameters in each, no target parameter
    twice, none shared, each pair stored with equal lengths. *)
Definition blendable (local_model target_model : Network) (h : gmap loc tensor) : Prop :=
  length (parameters local_model) = length (parameters target_model)
  /\ NoDup (parameters target_model)
  /\ (forall l, l ∈ parameters local_model -> l ∉ parameters target_model)
  /\ (forall i tp lp,
        parameters target_model !! i = Some tp ->
        parameters local_model !! i = Some lp ->
        exists ld td, h !! lp = Some ld /\ h !! tp = Some td /\ length ld = length td).

(** A finite scalar [q] with [lo <= q < hi]. *)
Definition in_range (lo hi : Q) (v : Float.t) : Prop :=
  exists q : Q, v = Float.Fin q /\ (lo <= q)%Q /\ (q < hi)%Q.

(** A noise object with the default [theta] and [sigma], a [mu] of zeros
    and a state within [0, 4/3). *)
Definition default_noise (noise : OUNoise.t) : Prop :=
  OUNoise.theta noise = Float.Fin 0.15
  /\ OUNoise.sigma noise = Float.Fin 0.2
  /\ length (OUNoise.mu noise) = length (OUNoise.state noise)
  /\ Forall (fun v => exists m : Q, v = Float.Fin m /\ (m == 0)%Q) (OUNoise.mu noise)
  /\ Forall (in_range 0 (4 # 3)) (OUNoise.state noise).

(** ** More inputs to run the definitions on *)

Module Tour.

(** The small agent with [learn_every = 0]. *)
Definition idle : DDGP.t :=
  DDGP.mk
    (DDGP.mkConfig "agent_0" 1 1 7 2 1 200 2 0
       (Float.Fin 1e-4) (Float.Fin 1e-3) (Float.Fin 1e-4) (Float.Fin 1e-3)
       (Float.Fin 0.99))
    (DDGP.actor_local Example.agent) (DDGP.actor_target Example.agent)
    (DDGP.actor_optimizer Example.agent)
    (DDGP.critic_local Example.agent) (DDGP.critic_target Example.agent)
    (DDGP.critic_optimizer Example.agent)
    (DDGP.noise Example.agent) (DDGP.memory Example.agent) 0 false (Float.Fin 1).

(** A buffer on which a caller has set [batch_size = 1], holding two
    experiences. *)
Definition patched_buffer : ReplayBuffer.t :=
  ReplayBuffer.mk (Deque.mk 2 [Example.e1; Example.e2]) (Some 1).


(** Two models that hold the same two tensors, in opposite orders. *)
Definition shared_store : gmap loc tensor :=
  <[0%nat := [Float.Fin 1]]> (<[1%nat := [Float.Fin 3]]> ∅).
Definition crossed_local : Network := mkNetwork [0%nat; 1%nat] true.
Definition crossed_target : Network := mkNetwork [1%nat; 0%nat] true.

(** A session with two [trigger_learn] calls and one [learn] call. *)
Definition calls : list DDGP.Call :=
  Example.calls ++ [DDGP.TriggerLearn; DDGP.Learn; DDGP.TriggerLearn;
                    DDGP.Save "runs" (ObjInt 3); DDGP.Reset].

End Tour.

(** * Properties *)

(** ** The replay buffer *)

Lemma experience_eta (e : Experience) :
  mkExperience (state e) (action e) (reward e) (next_state e) (done e) = e.
Proof. destruct e; reflexivity. Qed.

Lemma add_experience_items (rb : ReplayBuffer.t) (e : Experience) :
  Deque.items (ReplayBuffer.memory (ReplayBuffer.add_experience rb e))
  = let grown := Deque.items (ReplayBuffer.memory rb) ++ [e] in
    if (Deque.maxlen (ReplayBuffer.memory rb) <? length grown)%nat
    then tail grown else grown.
Proof.
  unfold ReplayBuffer.add_experience, ReplayBuffer.add, Deque.append; simpl.
  rewrite experience_eta. reflexivity.
Qed.

Lemma add_experience_maxlen (rb : ReplayBuffer.t) (e : Experience) :
  Deque.maxlen (ReplayBuffer.memory (ReplayBuffer.add_experience rb e))
  = Deque.maxlen (ReplayBuffer.memory rb).
Proof. reflexivity. Qed.

Lemma add_experience_batch_size (rb : ReplayBuffer.t) (e : Experience) :
  ReplayBuffer.batch_size (ReplayBuffer.add_experience rb e) = ReplayBuffer.batch_size rb.
Proof. reflexivity. Qed.

Lemma length_tail {A} (l : list A) : length (tail l) = pred (length l).
Proof. destruct l; reflexivity. Qed.

(** One [add] keeps the length within the capacity. *)
Lemma add_experience_bounded (rb : ReplayBuffer.t) (e : Experience) :
  (ReplayBuffer.len rb <= Deque.maxlen (ReplayBuffer.memory rb))%nat ->
  (ReplayBuffer.len (ReplayBuffer.add_experience rb e)
   <= Deque.maxlen (ReplayBuffer.memory rb))%nat.
Proof.
  unfold ReplayBuffer.len, Deque.len. intros Hle.
  rewrite add_experience_items. cbv zeta.
  destruct (Nat.ltb_spec (Deque.maxlen (ReplayBuffer.memory rb))
              (length (Deque.items (ReplayBuffer.memory rb) ++ [e]))) as [Hlt | Hge].
  - rewrite length_tail, length_app. simpl. lia.
  - exact Hge.
Qed.

Lemma add_all_bounded (es : list Experience) (rb : ReplayBuffer.t) :
  (ReplayBuffer.len rb <= Deque.maxlen (ReplayBuffer.memory rb))%nat ->
  Deque.maxlen (ReplayBuffer.memory (ReplayBuffer.add_all rb es))
  = Deque.maxlen (ReplayBuffer.memory rb)
  /\ (ReplayBuffer.len (ReplayBuffer.add_all rb es)
      <= Deque.maxlen (ReplayBuffer.memory rb))%nat.
Proof.
  revert rb. induction es as [| e es IH]; intros rb Hle; simpl.
  - split; [reflexivity | exact Hle].
  - destruct (IH (ReplayBuffer.add_experience rb e)) as [Hmax Hlen].
    + rewrite add_experience_maxlen. now apply add_experience_bounded.
    + rewrite add_experience_maxlen in Hmax, Hlen. split; assumption.
Qed.

Lemma replay_buffer_init (twister : Z -> Random.Rng) (buffer_size : nat) (seed : Z)
  (g : Random.Rng) :
  ReplayBuffer.init twister buffer_size seed g
  = (inr (ReplayBuffer.mk (Deque.new buffer_size) None), twister seed).
Proof. reflexivity. Qed.

(** C1. A buffer made by [ReplayBuffer(buffer_size, seed)] and filled by
    any sequence of [add] calls never reports a length above [buffer_size];
    one more [add] below capacity appends the experience and raises the
    length by one; one more [add] at capacity keeps the length at
    [buffer_size] and, of the stored experiences, drops the oldest and
    appends the new one at the end. *)
Theorem replay_buffer_rotating_bounded_queue
  (twister : Z -> Random.Rng) (buffer_size : nat) (seed : Z) (g g' : Random.Rng)
  (rb0 : ReplayBuffer.t) (es : list Experience) (e : Experience) :
  ReplayBuffer.init twister buffer_size seed g = (inr rb0, g') ->
  let rb := ReplayBuffer.add_all rb0 es in
  let rb' := ReplayBuffer.add_experience rb e in
  (ReplayBuffer.len rb <= buffer_size)%nat
  /\ ((ReplayBuffer.len rb < buffer_size)%nat ->
      ReplayBuffer.len rb' = S (ReplayBuffer.len rb)
      /\ Deque.items (ReplayBuffer.memory rb')
         = Deque.items (ReplayBuffer.memory rb) ++ [e])
  /\ (ReplayBuffer.len rb = buffer_size ->
      ReplayBuffer.len rb' = buffer_size
      /\ forall oldest rest,
           Deque.items (ReplayBuffer.memory rb) = oldest :: rest ->
           Deque.items (ReplayBuffer.memory rb') = rest ++ [e]).
Proof.
  rewrite replay_buffer_init. intros Hinit.
  assert (Hrb0 : rb0 = ReplayBuffer.mk (Deque.new buffer_size) None) by congruence.
  clear Hinit. intros rb rb'.
  destruct (add_all_bounded es rb0) as [Hmax Hlen].
  { rewrite Hrb0. unfold ReplayBuffer.len, Deque.len. simpl. lia. }
  fold rb in Hmax, Hlen.
  assert (Hcap : Deque.maxlen (ReplayBuffer.memory rb) = buffer_size).
  { rewrite Hmax, Hrb0. reflexivity. }
  assert (Hle : (ReplayBuffer.len rb <= buffer_size)%nat).
  { rewrite Hrb0 in Hlen. exact Hlen. }
  split; [exact Hle |].
  unfold ReplayBuffer.len, Deque.len in *. unfold rb'.
  rewrite add_experience_items, Hcap. cbv zeta. rewrite length_app. simpl.
  split.
  - intros Hlt.
    destruct (Nat.ltb_spec buffer_size (length (Deque.items (ReplayBuffer.memory rb)) + 1));
      [lia |].
    rewrite length_app. simpl. split; [lia | reflexivity].
  - intros Heq.
    destruct (Nat.ltb_spec buffer_size (length (Deque.items (ReplayBuffer.memory rb)) + 1));
      [| lia].
    split.
    + rewrite length_tail, length_app. simpl. lia.
    + intros oldest rest Hitems. rewrite Hitems. reflexivity.
Qed.

(** ** The agent: what each method does to the state *)

Lemma set_rng_same (w : World) : set_rng (rng w) w = w.
Proof. destruct w; reflexivity. Qed.

Lemma set_heap_same (w : World) : set_heap (heap w) w = w.
Proof. destruct w; reflexivity. Qed.

(** [learn] stops in [ReplayBuffer.sample], at the read of [self.batch_size],
    with the exploration coefficient already decayed. *)
Lemma learn_without_batch_size (lib : Library) (a : DDGP.t) (w : World) :
  ReplayBuffer.batch_size (DDGP.memory a) = None ->
  DDGP.learn lib (a, w)
  = (inl (AttributeError "ReplayBuffer" "batch_size"),
     (DDGP.set_exploration (DDGP.exploration a * DDGP.literal 0.999)%float a, w)).
Proof.
  intros Hnone.
  unfold DDGP.learn, bind, DDGP.on_self, modify, gets, DDGP.on_rng, zoom,
    ReplayBuffer.sample, raise.
  simpl. rewrite Hnone. simpl. rewrite set_rng_same. reflexivity.
Qed.

Lemma trigger_learn_without_batch_size (lib : Library) (a : DDGP.t) (w : World) :
  ReplayBuffer.batch_size (DDGP.memory a) = None ->
  let decayed := DDGP.set_exploration (DDGP.exploration a * DDGP.literal 0.975)%float
                   (DDGP.set_train false a) in
  DDGP.trigger_learn lib (a, w)
  = if Z.of_nat (ReplayBuffer.len (DDGP.memory a)) >? DDGP.batch_size (DDGP.config a)
    then (inl (AttributeError "ReplayBuffer" "batch_size"),
          (DDGP.set_exploration (DDGP.exploration decayed * DDGP.literal 0.999)%float
             decayed, w))
    else (inr tt, (decayed, w)).
Proof.
  intros Hnone decayed.
  unfold DDGP.trigger_learn, bind, DDGP.on_self, modify, gets, ret. simpl.
  fold decayed.
  destruct (Z.of_nat (ReplayBuffer.len (DDGP.memory a)) >? DDGP.batch_size (DDGP.config a)).
  - apply learn_without_batch_size. exact Hnone.
  - reflexivity.
Qed.

Lemma update_counter_effect (a : DDGP.t) (w : World) :
  let counted := DDGP.set_step_mem (DDGP.step_mem a + 1) a in
  DDGP.update_counter (a, w)
  = if DDGP.learn_every (DDGP.config a) =? 0
    then (inl ZeroDivisionError, (counted, w))
    else if (DDGP.step_mem a + 1) mod DDGP.learn_every (DDGP.config a) =? 0
         then (inr tt, (DDGP.set_train true counted, w))
         else (inr tt, (counted, w)).
Proof.
  unfold DDGP.update_counter, bind, DDGP.on_self, modify, gets, ret, raise. simpl.
  destruct (DDGP.learn_every (DDGP.config a) =? 0); [reflexivity |].
  destruct ((DDGP.step_mem a + 1) mod DDGP.learn_every (DDGP.config a) =? 0);
    reflexivity.
Qed.

Lemma reset_effect (a : DDGP.t) (w : World) :
  DDGP.reset (a, w)
  = (inr tt,
     (DDGP.set_train false
        (DDGP.set_step_mem 0 (DDGP.set_noise (OUNoise.reset (DDGP.noise a)) a)), w)).
Proof. reflexivity. Qed.

Lemma memorize_effect (a : DDGP.t) (w : World) (s x : array) (r : Float.t)
  (s' : array) (d : bool) :
  DDGP.memorize s x r s' d (a, w)
  = (inr tt, (DDGP.set_memory (ReplayBuffer.add (DDGP.memory a) s x r s' d) a, w)).
Proof. reflexivity. Qed.

Lemma save_effect (lib : Library) (a : DDGP.t) (w : World) (save_path : string)
  (iteration : PyObject) :
  DDGP.save lib save_path iteration (a, w)
  = match torch_save_error lib (files w)
            (DDGP.checkpoint_path a save_path iteration) with
    | Some e => (inl e, (a, w))
    | None =>
        (inr tt,
         (a, set_files (<[DDGP.checkpoint_path a save_path iteration
                          := DDGP.save_dict a (heap w)]> (files w)) w))
    end.
Proof.
  unfold DDGP.save, bind, get, modify, raise. simpl.
  destruct (torch_save_error lib (files w) _); reflexivity.
Qed.

(** A [save] changes nothing of the agent, the parameters, the generator
    and the globals, whether it writes or raises. *)
Lemma save_frame (lib : Library) (a : DDGP.t) (w : World) (save_path : string)
  (iteration : PyObject) :
  fst (snd (DDGP.save lib save_path iteration (a, w))) = a
  /\ heap (snd (snd (DDGP.save lib save_path iteration (a, w)))) = heap w
  /\ rng (snd (snd (DDGP.save lib save_path iteration (a, w)))) = rng w
  /\ globals (snd (snd (DDGP.save lib save_path iteration (a, w)))) = globals w.
Proof.
  rewrite save_effect. destruct (torch_save_error lib (files w) _); repeat split.
Qed.

Lemma act_bookkeeping (lib : Library) (state : array) (add_noise : bool)
  (s : DDGP.t * World) :
  bookkeeping (fst (snd (DDGP.act lib state add_noise s))) = bookkeeping (fst s).
Proof.
  destruct s as [a w].
  unfold DDGP.act, bind, DDGP.on_self, modify, get, gets, ret, lift_result. simpl.
  destruct (Actor_forward lib (heap w) _ state) as [err | out]; [reflexivity |].
  destruct add_noise; [| reflexivity].
  unfold DDGP.on_noise, zoom. simpl.
  destruct (OUNoise.sample _) as [[err | sampled] [n g]]; [reflexivity |]. simpl.
  destruct (Numpy.iadd out _); reflexivity.
Qed.

Lemma soft_update_bookkeeping (l tg : Network) (tau : Float.t) (s : DDGP.t * World) :
  fst (snd (DDGP.on_heap (DDGP.soft_update l tg tau) s)) = fst s.
Proof.
  unfold DDGP.on_heap, zoom.
  destruct (DDGP.soft_update l tg tau (heap (snd s))); reflexivity.
Qed.

Lemma call_act_state (lib : Library) (state : array) (add_noise : bool)
  (s : DDGP.t * World) :
  snd (DDGP.call lib (DDGP.Act state add_noise) s) = snd (DDGP.act lib state add_noise s).
Proof.
  simpl. unfold bind. destruct (DDGP.act lib state add_noise s) as [[err | out] s'];
    reflexivity.
Qed.

(** ** Construction *)

Lemma allocate_succeeds (ts : list tensor) (h : gmap loc tensor) :
  exists ls h', Torch.allocate ts h = (inr ls, h').
Proof.
  revert h. induction ts as [| t ts IH]; intros h; simpl.
  - eexists _, _. reflexivity.
  - unfold bind, get, modify. simpl.
    destruct (IH (<[fresh (dom h) := t]> h)) as (ls & h' & Hrest).
    rewrite Hrest. eexists _, _. reflexivity.
Qed.

Lemma new_network_succeeds (ts : list tensor) (w : World) :
  exists net w', DDGP.new_network ts w = (inr net, w').
Proof.
  unfold DDGP.new_network, bind, zoom.
  destruct (allocate_succeeds ts (heap w)) as (ls & h' & Halloc).
  rewrite Halloc. eexists _, _. reflexivity.
Qed.

(** [__init__] raises nothing, and the agent it returns has an empty
    replay buffer without [batch_size], a step counter of zero, a cleared
    train flag and an exploration coefficient of one. *)
Lemma init_succeeds (lib : Library) (c : DDGP.Config) (w0 : World) :
  exists a w, DDGP.init lib c w0 = (inr a, w).
Proof.
  unfold DDGP.init, bind, zoom, Random.seed. simpl.
  repeat match goal with
         | |- context [DDGP.new_network ?ts ?w] =>
             let net := fresh "net" in
             let w' := fresh "w" in
             let H := fresh "H" in
             destruct (new_network_succeeds ts w) as (net & w' & H); rewrite H; simpl
         end.
  eexists _, _. reflexivity.
Qed.

Lemma init_agent (lib : Library) (c : DDGP.Config) (w0 w : World) (a : DDGP.t) :
  DDGP.init lib c w0 = (inr a, w) ->
  DDGP.config a = c
  /\ DDGP.memory a = ReplayBuffer.mk (Deque.new (DDGP.buffer_size c)) None
  /\ DDGP.step_mem a = 0
  /\ DDGP.train a = false
  /\ DDGP.exploration a = DDGP.literal 1.
Proof.
  unfold DDGP.init, bind, zoom, Random.seed. simpl.
  repeat match goal with
         | |- context [DDGP.new_network ?ts ?w] =>
             let net := fresh "net" in
             let w' := fresh "w" in
             let H := fresh "H" in
             destruct (new_network_succeeds ts w) as (net & w' & H); rewrite H; simpl
         end.
  intros Heq. injection Heq as Ha Hw. subst a. simpl. repeat split; reflexivity.
Qed.

(** ** The invariant *)

Lemma invariant_bookkeeping (s s' : DDGP.t * World) :
  bookkeeping (fst s') = bookkeeping (fst s) -> invariant s -> invariant s'.
Proof.
  unfold bookkeeping, invariant. intros Heq. injection Heq as Hc Hm Hs Ht He.
  rewrite Hm, Hs, He. trivial.
Qed.

Lemma decayed_coefficient (q c : Q) :
  (0 < q)%Q -> (q <= 1)%Q -> (0 < c)%Q -> (c <= 1)%Q ->
  (0 < q * c)%Q /\ (q * c <= q)%Q /\ (q * c <= 1)%Q.
Proof. intros. repeat split; nra. Qed.

Lemma invariant_init (lib : Library) (c : DDGP.Config) (w0 w : World) (a : DDGP.t) :
  DDGP.init lib c w0 = (inr a, w) -> invariant (a, w).
Proof.
  intros Hinit. destruct (init_agent _ _ _ _ _ Hinit) as (_ & Hm & Hs & _ & He).
  unfold invariant. simpl. rewrite Hm, Hs, He. simpl.
  split; [reflexivity |]. split; [lia |].
  exists 1%Q. split; [reflexivity |]. split; lra.
Qed.

Lemma invariant_call (lib : Library) (c : DDGP.Call) (s : DDGP.t * World) :
  invariant s -> invariant (snd (DDGP.call lib c s)).
Proof.
  destruct s as [a w]. intros Hinv.
  destruct c as [st x r st' d | | | st b | | | l tg tau | path i].
  - exact Hinv.
  - destruct Hinv as (Hnone & Hstep & q & Hq & Hpos & Hle). simpl in *.
    rewrite trigger_learn_without_batch_size by exact Hnone. rewrite Hq.
    destruct (decayed_coefficient q 0.975 Hpos Hle) as (H1 & H2 & H3); [lra | lra |].
    destruct (_ >? _); unfold invariant; simpl.
    + split; [exact Hnone |]. split; [exact Hstep |].
      destruct (decayed_coefficient (q * 0.975) 0.999 H1 H3) as (H4 & H5 & H6);
        [lra | lra |].
      eexists. split; [reflexivity |]. split; assumption.
    + split; [exact Hnone |]. split; [exact Hstep |].
      eexists. split; [reflexivity |]. split; assumption.
  - destruct Hinv as (Hnone & Hstep & Hexp). simpl in *.
    rewrite update_counter_effect.
    destruct (_ =? 0); [| destruct (_ =? 0)]; unfold invariant; simpl;
      (split; [exact Hnone |]; split; [lia | exact Hexp]).
  - rewrite call_act_state.
    apply (invariant_bookkeeping (a, w)); [apply act_bookkeeping | exact Hinv].
  - destruct Hinv as (Hnone & Hstep & Hexp). unfold invariant; simpl.
    split; [exact Hnone |]. split; [lia | exact Hexp].
  - destruct Hinv as (Hnone & Hstep & q & Hq & Hpos & Hle). simpl in *.
    rewrite learn_without_batch_size by exact Hnone. rewrite Hq.
    destruct (decayed_coefficient q 0.999 Hpos Hle) as (H1 & H2 & H3); [lra | lra |].
    unfold invariant; simpl.
    split; [exact Hnone |]. split; [exact Hstep |].
    eexists. split; [reflexivity |]. split; assumption.
  - simpl. apply (invariant_bookkeeping (a, w)); [| exact Hinv].
    rewrite soft_update_bookkeeping. reflexivity.
  - apply (invariant_bookkeeping (a, w)); [| exact Hinv].
    simpl. rewrite (proj1 (save_frame lib a w path i)). reflexivity.
Qed.

Lemma invariant_session (lib : Library) (calls : list DDGP.Call) (s : DDGP.t * World) :
  invariant s -> invariant (DDGP.session lib calls s).
Proof.
  revert s. induction calls as [| c calls IH]; intros s Hinv; simpl.
  - exact Hinv.
  - apply IH, invariant_call, Hinv.
Qed.

Lemma session_batch_size_unbound (lib : Library) (c : DDGP.Config) (w0 w : World)
  (a : DDGP.t) (calls : list DDGP.Call) :
  DDGP.init lib c w0 = (inr a, w) ->
  ReplayBuffer.batch_size (DDGP.memory (fst (DDGP.session lib calls (a, w)))) = None.
Proof.
  intros Hinit.
  apply (invariant_session lib calls (a, w)), (invariant_init lib c w0), Hinit.
Qed.

(** ** The claims on errors, sampling and learning *)

(** C2. The operations do raise errors of their own.  For an agent made by
    [__init__] and used in any way, [trigger_learn] with more than
    [batch_size] stored experiences ends in [AttributeError]
    ("'ReplayBuffer' object has no attribute 'batch_size'"), raised by the
    interpreter inside [ReplayBuffer.sample] and not by the tensor
    library; the train flag is cleared and the exploration coefficient has
    been decayed twice by then. *)
Theorem trigger_learn_raises_attribute_error
  (lib : Library) (c : DDGP.Config) (w0 w : World) (a : DDGP.t)
  (calls : list DDGP.Call) :
  DDGP.init lib c w0 = (inr a, w) ->
  let s := DDGP.session lib calls (a, w) in
  Z.of_nat (ReplayBuffer.len (DDGP.memory (fst s))) > DDGP.batch_size (DDGP.config (fst s)) ->
  exists err,
    fst (DDGP.trigger_learn lib s) = inl err
    /\ err = AttributeError "ReplayBuffer" "batch_size"
    /\ is_library_error err = false
    /\ snd (snd (DDGP.trigger_learn lib s)) = snd s
    /\ DDGP.train (fst (snd (DDGP.trigger_learn lib s))) = false.
Proof.
  intros Hinit s Hlen.
  pose proof (session_batch_size_unbound lib c w0 w a calls Hinit) as Hnone.
  fold s in Hnone. destruct s as [a1 w1]. simpl in *.
  rewrite trigger_learn_without_batch_size by exact Hnone.
  apply Z.gt_lt, Z.gtb_lt in Hlen. rewrite Hlen.
  eexists. repeat split.
Qed.

(** C4. [ReplayBuffer.sample] returns no batch.  For a buffer made by
    [ReplayBuffer(buffer_size, seed)] and filled by any sequence of [add]
    calls, however many experiences it holds, [sample()] ends in
    [AttributeError] at the read of [self.batch_size], with the generator
    untouched. *)
Theorem replay_buffer_sample_raises_attribute_error
  (twister : Z -> Random.Rng) (buffer_size : nat) (seed : Z) (g g' : Random.Rng)
  (rb0 : ReplayBuffer.t) (es : list Experience) (g1 : Random.Rng) :
  ReplayBuffer.init twister buffer_size seed g = (inr rb0, g') ->
  ReplayBuffer.sample (ReplayBuffer.add_all rb0 es) g1
  = (inl (AttributeError "ReplayBuffer" "batch_size"), g1).
Proof.
  rewrite replay_buffer_init. intros Hinit.
  assert (Hrb0 : ReplayBuffer.batch_size rb0 = None).
  { injection Hinit as <- _. reflexivity. }
  clear Hinit.
  assert (Hnone : ReplayBuffer.batch_size (ReplayBuffer.add_all rb0 es) = None).
  { revert rb0 Hrb0. induction es as [| e es IH]; intros rb0 Hrb0; simpl.
    - exact Hrb0.
    - apply IH. rewrite add_experience_batch_size. exact Hrb0. }
  unfold ReplayBuffer.sample. rewrite Hnone. reflexivity.
Qed.

(** On an agent made by [__init__] and used through its methods only, no
    call of [learn] completes: [learn()] ends in [AttributeError] inside
    [ReplayBuffer.sample], before the optimizer steps and before both
    [soft_update] calls; the parameter store, hence every target
    parameter, is as it was, and only the exploration coefficient has
    changed. *)
Lemma learn_raises_before_soft_update
  (lib : Library) (c : DDGP.Config) (w0 w : World) (a : DDGP.t)
  (calls : list DDGP.Call) :
  DDGP.init lib c w0 = (inr a, w) ->
  let s := DDGP.session lib calls (a, w) in
  DDGP.learn lib s
  = (inl (AttributeError "ReplayBuffer" "batch_size"),
     (DDGP.set_exploration (DDGP.exploration (fst s) * DDGP.literal 0.999)%float (fst s),
      snd s))
  /\ heap (snd (snd (DDGP.learn lib s))) = heap (snd s)
  /\ DDGP.actor_target (fst (snd (DDGP.learn lib s))) = DDGP.actor_target (fst s)
  /\ DDGP.critic_target (fst (snd (DDGP.learn lib s))) = DDGP.critic_target (fst s).
Proof.
  intros Hinit s.
  pose proof (session_batch_size_unbound lib c w0 w a calls Hinit) as Hnone.
  fold s in Hnone. destruct s as [a1 w1]. simpl in *.
  rewrite learn_without_batch_size by exact Hnone.
  repeat split.
Qed.

(** ** What [sample] and [learn] would do with the missing names bound

    The two lemmas below are about states that no code of the file
    produces: a buffer whose [batch_size] attribute has been set from
    outside, and a module whose globals [agent], [BATCH_SIZE] and [GAMMA]
    exist.  They record what lines 243-255 and 173-175 are written to do. *)

Lemma length_removelast {A} (l : list A) : length (removelast l) = pred (length l).
Proof. rewrite removelast_firstn_len, length_take. lia. Qed.

Lemma swap_remove_permutation {A} (pool : list A) (j : nat) (x y : A) :
  pool !! j = Some x -> last pool = Some y ->
  x :: removelast (<[j := y]> pool) ≡ₚ pool.
Proof.
  intros Hj Hlast. apply last_Some in Hlast as [front ->].
  destruct (decide (j < length front)%nat) as [Hlt | Hge].
  - rewrite insert_app_l by exact Hlt.
    rewrite removelast_last.
    rewrite lookup_app_l in Hj by exact Hlt.
    rewrite <- (take_drop_middle front j x Hj) at 2.
    rewrite insert_take_drop by exact Hlt.
    rewrite <- (Permutation_cons_append (take j front ++ x :: drop (S j) front) y).
    rewrite <- !Permutation_middle. apply perm_swap.
  - apply lookup_lt_Some in Hj as Hb. rewrite length_app in Hb. simpl in Hb.
    assert (j = length front) as -> by lia.
    rewrite list_lookup_middle in Hj by reflexivity. injection Hj as <-.
    rewrite insert_app_r_alt by lia. rewrite Nat.sub_diag. simpl.
    rewrite removelast_last. apply Permutation_cons_append.
Qed.

(** The selection loop draws without replacement: what it returns, put
    before what it leaves in the pool, is a rearrangement of the pool. *)
Lemma select_without_replacement {A} (k : nat) :
  forall (pool : list A) (g g' : Random.Rng) (xs : list A),
    (k <= length pool)%nat ->
    Random.select k pool g = (inr xs, g') ->
    length xs = k /\ exists rest, xs ++ rest ≡ₚ pool.
Proof.
  induction k as [| k IH]; intros pool g g' xs Hk Hsel; simpl in Hsel.
  - injection Hsel as <- _. split; [reflexivity |]. exists pool. reflexivity.
  - unfold bind, Random.randbelow in Hsel. simpl in Hsel.
    destruct (lookup_lt_is_Some_2 pool (N.to_nat (g 0%nat) mod length pool))
      as [x Hx]; [apply Nat.mod_upper_bound; lia |].
    rewrite Hx in Hsel.
    destruct (last pool) as [y |] eqn:Hlast.
    2:{ apply last_None in Hlast. subst pool. simpl in Hk. lia. }
    destruct (Random.select k _ (Random.advance g)) as [[err | rest] g1] eqn:Hrest;
      [discriminate |].
    injection Hsel as <- _.
    apply IH in Hrest as [Hlen (left & Hperm)].
    + split; [simpl; congruence |]. exists left. simpl.
      rewrite Hperm. apply swap_remove_permutation; assumption.
    + rewrite length_removelast, length_insert. lia.
Qed.

Lemma vstack_rows (rows m : list array) : Numpy.vstack rows = inr m -> m = rows.
Proof.
  unfold Numpy.vstack. destruct rows as [| r rs]; [discriminate |].
  destruct (forallb _ rs); [| discriminate]. intros Heq. injection Heq as <-.
  reflexivity.
Qed.

Lemma sample_with_batch_size (rb : ReplayBuffer.t) (k : Z) (g g' : Random.Rng)
  (batch : Batch) :
  ReplayBuffer.batch_size rb = Some k ->
  ReplayBuffer.sample rb g = (inr batch, g') ->
  exists xs rest : list Experience,
    xs ++ rest ≡ₚ Deque.items (ReplayBuffer.memory rb)
    /\ Z.of_nat (length xs) = k
    /\ states batch = map state xs
    /\ actions batch = map action xs
    /\ rewards batch = map (fun e => [reward e]) xs
    /\ next_states batch = map next_state xs
    /\ dones batch = map (fun e => [ReplayBuffer.uint8 (done e)]) xs.
Proof.
  intros Hk. unfold ReplayBuffer.sample, Random.sample. rewrite Hk.
  unfold bind, lift_result, raise, ret.
  destruct (Z.leb_spec 0 k) as [Hlo |]; [| discriminate].
  destruct (Z.leb_spec k (Z.of_nat (length (Deque.items (ReplayBuffer.memory rb)))))
    as [Hhi |]; [| discriminate]. simpl.
  destruct (Random.select _ _ g) as [[err | xs] g1] eqn:Hsel; [discriminate |].
  apply select_without_replacement in Hsel as [Hlen (rest & Hperm)]; [| lia].
  destruct (Numpy.vstack (map state xs)) as [| m1] eqn:H1; [discriminate |].
  destruct (Numpy.vstack (map action xs)) as [| m2] eqn:H2; [discriminate |].
  destruct (Numpy.vstack (map (fun e => [reward e]) xs)) as [| m3] eqn:H3;
    [discriminate |].
  destruct (Numpy.vstack (map next_state xs)) as [| m4] eqn:H4; [discriminate |].
  destruct (Numpy.vstack (map (fun e => [ReplayBuffer.uint8 (done e)]) xs))
    as [| m5] eqn:H5; [discriminate |].
  intros Heq. injection Heq as <- _. simpl.
  apply vstack_rows in H1, H2, H3, H4, H5. subst.
  exists xs, rest. repeat split; try reflexivity; [exact Hperm | lia].
Qed.

Lemma learn_returns_after_soft_updates (lib : Library) (a : DDGP.t) (w : World)
  (s' : DDGP.t * World) :
  DDGP.learn lib (a, w) = (inr tt, s') ->
  exists h1 h2 : gmap loc tensor,
    DDGP.soft_update (DDGP.critic_local a) (DDGP.critic_target a)
      (DDGP.tau (DDGP.config a)) h1 = (inr tt, h2)
    /\ DDGP.soft_update (DDGP.actor_local a) (DDGP.actor_target a)
         (DDGP.tau (DDGP.config a)) h2 = (inr tt, heap (snd s')).
Proof.
  unfold DDGP.learn, DDGP.load_global, DDGP.on_rng, DDGP.on_training, DDGP.on_heap,
    DDGP.on_self, bind, zoom, gets, modify, lift_result, raise, ret.
  simpl.
  destruct (ReplayBuffer.sample _ _) as [[err | experience] g1]; simpl;
    [discriminate |].
  destruct (globals w !! "agent") as [agent |]; simpl; [| discriminate].
  destruct (globals w !! "BATCH_SIZE") as [BATCH_SIZE |]; simpl; [| discriminate].
  destruct (select_agent lib _ _ _) as [err | batch]; simpl; [discriminate |].
  destruct (target_values lib _ _ _ _) as [err | Q_targets_next]; simpl;
    [discriminate |].
  destruct (globals w !! "GAMMA") as [GAMMA |]; simpl; [| discriminate].
  destruct (optimize lib _ _ _ _ _ _) as [[err | []] [[h1 oc] oa]]; simpl;
    [discriminate |].
  destruct (DDGP.soft_update (DDGP.critic_local a) _ _ h1) as [[err | []] h2] eqn:Hc;
    simpl; [discriminate |].
  destruct (DDGP.soft_update (DDGP.actor_local a) _ _ h2) as [[err | []] h3] eqn:Ha;
    simpl; [discriminate |].
  intros Heq. injection Heq as <-. simpl.
  exists h1, h2. split; [exact Hc | exact Ha].
Qed.

(** ** The checkpoint *)

(** C7, as amended.  [save(save_path, iteration)] hands to [torch.save]
    the path [os.path.join] of [save_path] and the agent's name followed
    by ["i_episode-"], the text of [iteration] and [".pt"].  When
    [torch.save] can write there, [save] returns and that one file is
    bound to a dictionary with exactly the six keys of the claim, in this
    order, each holding the state dictionary of its network or optimizer;
    no other file changes.  When it cannot, [save] passes the error on and
    no file changes.  Either way the agent, the parameters, the generator
    and the globals are as they were. *)
Theorem save_writes_parameter_dictionary
  (lib : Library) (a : DDGP.t) (w : World) (save_path : string)
  (iteration : PyObject) :
  let path :=
    Os.path_join save_path
      (String.append (DDGP.name (DDGP.config a))
         (String.append "i_episode-" (String.append (format_ iteration) ".pt"))) in
  (torch_save_error lib (files w) path = None ->
   exists (w' : World) (dict : list (string * StateDict)),
     DDGP.save lib save_path iteration (a, w) = (inr tt, (a, w'))
     /\ files w' !! path = Some dict
     /\ (forall other, other <> path -> files w' !! other = files w !! other)
     /\ heap w' = heap w /\ rng w' = rng w /\ globals w' = globals w
     /\ map fst dict
        = [ "actor_local_params"; "actor_target_params"; "actor_optim_params";
            "critic_local_params"; "critic_target_params"; "critic_optim_params" ]
     /\ map snd dict
        = [ Torch.state_dict (heap w) (DDGP.actor_local a);
            Torch.state_dict (heap w) (DDGP.actor_target a);
            Torch.optimizer_state_dict (DDGP.actor_optimizer a);
            Torch.state_dict (heap w) (DDGP.critic_local a);
            Torch.state_dict (heap w) (DDGP.critic_target a);
            Torch.optimizer_state_dict (DDGP.critic_optimizer a) ])
  /\ (forall e,
        torch_save_error lib (files w) path = Some e ->
        DDGP.save lib save_path iteration (a, w) = (inl e, (a, w))).
Proof.
  intros path. rewrite save_effect.
  change (DDGP.checkpoint_path a save_path iteration) with path.
  split.
  - intros Hcan. rewrite Hcan.
    eexists _, _. split; [reflexivity |]. simpl.
    split; [apply lookup_insert_eq |].
    split.
    { intros other Hne. apply lookup_insert_ne.
      intros Heq. apply Hne. symmetry. exact Heq. }
    repeat split.
  - intros e Hcannot. rewrite Hcannot. reflexivity.
Qed.

(** C7, as stated, fails: where the directory of [save_path] does not
    exist, [torch.save] raises, [save] passes the error on, and the file
    of the claim is not written. *)
Lemma save_to_missing_directory_counterexample :
  DDGP.save Example.lib "missing" (ObjInt 3) (Example.agent, Example.world1)
  = (inl (LibraryError "Parent directory missing does not exist."),
     (Example.agent, Example.world1))
  /\ files Example.world1
     !! Os.path_join "missing"
          (String.append (DDGP.name (DDGP.config Example.agent))
             (String.append "i_episode-" (String.append (format_ (ObjInt 3)) ".pt")))
     = None.
Proof. split; vm_compute; reflexivity. Qed.

(** Into the directory [runs], which exists, the small agent's checkpoint
    of iteration 3 is written. *)
Lemma save_writes_parameter_dictionary_witness :
  torch_save_error Example.lib (files Example.world1) "runs/agent_0i_episode-3.pt" = None
  /\ exists (w' : World) (dict : list (string * StateDict)),
       DDGP.save Example.lib "runs" (ObjInt 3) (Example.agent, Example.world1)
       = (inr tt, (Example.agent, w'))
       /\ files w' !! "runs/agent_0i_episode-3.pt" = Some dict
       /\ map fst dict
          = [ "actor_local_params"; "actor_target_params"; "actor_optim_params";
              "critic_local_params"; "critic_target_params"; "critic_optim_params" ].
Proof.
  split; [reflexivity |].
  destruct (save_writes_parameter_dictionary
              Example.lib Example.agent Example.world1 "runs" (ObjInt 3))
    as [Hwritten _].
  destruct (Hwritten eq_refl) as (w' & dict & Hrun & Hfile & _ & _ & _ & _ & Hkeys & _).
  exists w', dict. split; [exact Hrun |]. split; [exact Hfile | exact Hkeys].
Defined.

(** ** The exploration coefficient *)

Lemma leb_Fin (p q : Q) : (p <= q)%Q -> Float.leb (Float.Fin p) (Float.Fin q) = true.
Proof.
  intros Hle. destruct (Qle_alt p q) as [Hcmp _]. specialize (Hcmp Hle).
  simpl. destruct (p ?= q)%Q; [reflexivity | reflexivity | contradiction].
Qed.

Lemma call_exploration (lib : Library) (cl : DDGP.Call) (a : DDGP.t) (w : World) :
  ReplayBuffer.batch_size (DDGP.memory a) = None ->
  DDGP.exploration (fst (snd (DDGP.call lib cl (a, w))))
  = match cl with
    | DDGP.TriggerLearn =>
        if Z.of_nat (ReplayBuffer.len (DDGP.memory a)) >? DDGP.batch_size (DDGP.config a)
        then (DDGP.exploration a * DDGP.literal 0.975 * DDGP.literal 0.999)%float
        else (DDGP.exploration a * DDGP.literal 0.975)%float
    | DDGP.Learn => (DDGP.exploration a * DDGP.literal 0.999)%float
    | _ => DDGP.exploration a
    end.
Proof.
  intros Hnone.
  destruct cl as [st x r st' d | | | st b | | | l tg tau | path i].
  - reflexivity.
  - simpl. rewrite trigger_learn_without_batch_size by exact Hnone.
    destruct (_ >? _); reflexivity.
  - simpl. rewrite update_counter_effect.
    destruct (_ =? 0); [| destruct (_ =? 0)]; reflexivity.
  - rewrite call_act_state.
    pose proof (act_bookkeeping lib st b (a, w)) as Hbk.
    unfold bookkeeping in Hbk. injection Hbk as _ _ _ _ He. exact He.
  - reflexivity.
  - simpl. rewrite learn_without_batch_size by exact Hnone. reflexivity.
  - simpl. rewrite soft_update_bookkeeping. reflexivity.
  - simpl. rewrite (proj1 (save_frame lib a w path i)). reflexivity.
Qed.

(** C9. The exploration coefficient is 1.0 after [__init__]; after any
    session it is a number [q] with [0 < q <= 1]; and one more call leaves
    it as it is, except [learn], which multiplies it by 0.999, and
    [trigger_learn], which multiplies it by 0.975 and, when it goes on to
    call [learn], by 0.999 after that.  So no call increases it. *)
Theorem exploration_decays_within_unit_interval
  (lib : Library) (c : DDGP.Config) (w0 w : World) (a : DDGP.t)
  (calls : list DDGP.Call) (cl : DDGP.Call) :
  DDGP.init lib c w0 = (inr a, w) ->
  let s := DDGP.session lib calls (a, w) in
  let e := DDGP.exploration (fst s) in
  let e' := DDGP.exploration (fst (snd (DDGP.call lib cl s))) in
  DDGP.exploration a = Float.Fin 1
  /\ (exists q : Q, e = Float.Fin q /\ (0 < q)%Q /\ (q <= 1)%Q)
  /\ e' = match cl with
          | DDGP.TriggerLearn =>
              if Z.of_nat (ReplayBuffer.len (DDGP.memory (fst s)))
                 >? DDGP.batch_size (DDGP.config (fst s))
              then (e * Float.Fin 0.975 * Float.Fin 0.999)%float
              else (e * Float.Fin 0.975)%float
          | DDGP.Learn => (e * Float.Fin 0.999)%float
          | _ => e
          end
  /\ Float.leb e' e = true.
Proof.
  intros Hinit s e e'.
  pose proof (invariant_session lib calls (a, w) (invariant_init lib c w0 w a Hinit))
    as (Hnone & _ & q & Hq & Hpos & Hle).
  fold s in Hnone, Hq. fold e in Hq.
  split; [apply (init_agent lib c w0 w a Hinit) |].
  split; [exists q; repeat split; assumption |].
  assert (Hstep : e' = match cl with
          | DDGP.TriggerLearn =>
              if Z.of_nat (ReplayBuffer.len (DDGP.memory (fst s)))
                 >? DDGP.batch_size (DDGP.config (fst s))
              then (e * Float.Fin 0.975 * Float.Fin 0.999)%float
              else (e * Float.Fin 0.975)%float
          | DDGP.Learn => (e * Float.Fin 0.999)%float
          | _ => e
          end).
  { unfold e', e. destruct s as [a1 w1]. apply call_exploration. exact Hnone. }
  split; [exact Hstep |].
  rewrite Hstep, Hq.
  destruct (decayed_coefficient q 0.975 Hpos Hle) as (H1 & H2 & H3); [lra | lra |].
  destruct (decayed_coefficient q 0.999 Hpos Hle) as (H4 & H5 & H6); [lra | lra |].
  destruct (decayed_coefficient (q * 0.975) 0.999 H1 H3) as (H7 & H8 & H9); [lra | lra |].
  destruct cl; try (apply leb_Fin; lra).
  destruct (_ >? _); apply leb_Fin; lra.
Qed.

(** ** The step counter and the train flag *)

(** C10. After any session, [update_counter] adds exactly one to
    [step_mem], ends with [train] set if and only if it was set before or
    the new [step_mem] is a multiple of [learn_every], and changes nothing
    else; [reset] sets [step_mem] to 0 and [train] to False, puts the noise
    state back to [mu], and leaves the replay buffer, the networks, the
    optimizers, the exploration coefficient and the world as they were. *)
Theorem train_flag_follows_step_counter
  (lib : Library) (c : DDGP.Config) (w0 w : World) (a : DDGP.t)
  (calls : list DDGP.Call) :
  DDGP.init lib c w0 = (inr a, w) ->
  let s := DDGP.session lib calls (a, w) in
  let counted := snd (DDGP.update_counter s) in
  let cleared := snd (DDGP.reset s) in
  (DDGP.step_mem (fst counted) = DDGP.step_mem (fst s) + 1
   /\ (DDGP.train (fst counted) = true <->
       DDGP.train (fst s) = true
       \/ (DDGP.learn_every (DDGP.config (fst s)) | DDGP.step_mem (fst s) + 1))
   /\ fst counted
      = DDGP.set_train (DDGP.train (fst counted))
          (DDGP.set_step_mem (DDGP.step_mem (fst s) + 1) (fst s))
   /\ snd counted = snd s)
  /\ (fst (DDGP.reset s) = inr tt
      /\ DDGP.step_mem (fst cleared) = 0
      /\ DDGP.train (fst cleared) = false
      /\ OUNoise.state (DDGP.noise (fst cleared)) = OUNoise.mu (DDGP.noise (fst s))
      /\ DDGP.noise (fst cleared) = OUNoise.reset (DDGP.noise (fst s))
      /\ DDGP.memory (fst cleared) = DDGP.memory (fst s)
      /\ DDGP.exploration (fst cleared) = DDGP.exploration (fst s)
      /\ (DDGP.actor_local (fst cleared), DDGP.actor_target (fst cleared),
          DDGP.critic_local (fst cleared), DDGP.critic_target (fst cleared))
         = (DDGP.actor_local (fst s), DDGP.actor_target (fst s),
            DDGP.critic_local (fst s), DDGP.critic_target (fst s))
      /\ (DDGP.actor_optimizer (fst cleared), DDGP.critic_optimizer (fst cleared),
          DDGP.config (fst cleared))
         = (DDGP.actor_optimizer (fst s), DDGP.critic_optimizer (fst s),
            DDGP.config (fst s))
      /\ snd cleared = snd s).
Proof.
  intros Hinit s counted cleared.
  pose proof (invariant_session lib calls (a, w) (invariant_init lib c w0 w a Hinit))
    as (_ & Hstep & _).
  fold s in Hstep. subst counted cleared. destruct s as [a1 w1]. simpl in Hstep.
  split; [| repeat split].
  rewrite update_counter_effect. simpl.
  destruct (Z.eqb_spec (DDGP.learn_every (DDGP.config a1)) 0) as [Hzero | Hnz]; simpl.
  - repeat split; try (destruct a1; reflexivity).
    + intros Ht. left. exact Ht.
    + intros [Ht | Hdiv]; [exact Ht |].
      rewrite Hzero in Hdiv. apply Z.divide_0_l in Hdiv. lia.
  - destruct (Z.eqb_spec ((DDGP.step_mem a1 + 1) mod DDGP.learn_every (DDGP.config a1)) 0)
      as [Hmod | Hmod]; simpl.
    + repeat split.
      intros _. right. apply Z.mod_divide; assumption.
    + repeat split; try (destruct a1; reflexivity).
      * intros Ht. left. exact Ht.
      * intros [Ht | Hdiv]; [exact Ht |].
        apply Z.mod_divide in Hdiv; [contradiction | assumption].
Qed.

(** ** The soft update *)

Lemma elementwise_same_length (f : Float.t -> Float.t -> Float.t) (x y : array) :
  length x = length y -> Numpy.elementwise f x y = inr (zip_with f x y).
Proof.
  intros Hlen. unfold Numpy.elementwise.
  apply Nat.eqb_eq in Hlen. rewrite Hlen. reflexivity.
Qed.

Lemma length_blend (tau : Float.t) (ld td : tensor) :
  length ld = length td -> length (blend tau ld td) = length td.
Proof.
  intros Hlen. unfold blend. rewrite length_zip_with, !length_map. lia.
Qed.

(** One round of the loop of [soft_update]. *)
Lemma soft_update_round (tau : Float.t) (tp lp : loc) (ld td : tensor)
  (h : gmap loc tensor) :
  h !! lp = Some ld -> h !! tp = Some td -> length ld = length td ->
  (do local_data <- Torch.read lp;
   do target_data <- Torch.read tp;
   do blended <- lift_result
                   (Numpy.elementwise Float.add
                      (Numpy.scale tau local_data)
                      (Numpy.scale (DDGP.literal 1 - tau) target_data));
   Torch.copy_ tp blended) h
  = (inr tt, <[tp := blend tau ld td]> h).
Proof.
  intros Hl Ht Hlen.
  unfold bind, Torch.read, lift_result, Torch.copy_, bind, Torch.read, modify.
  rewrite Hl, Ht.
  rewrite elementwise_same_length by (unfold Numpy.scale; rewrite !length_map; exact Hlen).
  rewrite Ht. fold (blend tau ld td).
  pose proof (length_blend tau ld td Hlen) as Hb. unfold blend in Hb.
  unfold Numpy.scale, DDGP.literal.
  apply Nat.eqb_eq in Hb. rewrite Hb. reflexivity.
Qed.

Lemma tail_target_differs (tp tp' : loc) (targets : list loc) (i : nat) :
  tp ∉ targets -> targets !! i = Some tp' -> tp <> tp'.
Proof.
  intros Hfresh Hi ->. apply Hfresh. eapply list_elem_of_lookup_2. exact Hi.
Qed.

Lemma tail_local_differs (tp lp lp' : loc) (targets locals : list loc) (i : nat) :
  (forall l, l ∈ lp :: locals -> l ∉ tp :: targets) ->
  locals !! i = Some lp' -> tp <> lp'.
Proof.
  intros Hdisj Hi ->. apply (Hdisj lp').
  - right. eapply list_elem_of_lookup_2. exact Hi.
  - left.
Qed.

Lemma soft_update_lists (tau : Float.t) (b b' : bool) :
  forall (targets locals : list loc) (h : gmap loc tensor),
    length locals = length targets ->
    NoDup targets ->
    (forall l, l ∈ locals -> l ∉ targets) ->
    (forall i tp lp, targets !! i = Some tp -> locals !! i = Some lp ->
       exists ld td, h !! lp = Some ld /\ h !! tp = Some td /\ length ld = length td) ->
    exists h',
      DDGP.soft_update (mkNetwork locals b) (mkNetwork targets b') tau h = (inr tt, h')
      /\ (forall i tp lp ld td,
            targets !! i = Some tp -> locals !! i = Some lp ->
            h !! lp = Some ld -> h !! tp = Some td ->
            h' !! tp = Some (blend tau ld td))
      /\ (forall l, l ∉ targets -> h' !! l = h !! l).
Proof.
  induction targets as [| tp targets IH]; intros locals h Hlen Hnodup Hdisj Halloc.
  - exists h. split; [reflexivity |]. split; [| reflexivity].
    intros i tp lp ld td Hi. rewrite lookup_nil in Hi. discriminate.
  - destruct locals as [| lp locals]; [discriminate |].
    apply NoDup_cons in Hnodup as [Hfresh Hnodup].
    destruct (Halloc 0%nat tp lp eq_refl eq_refl) as (ld & td & Hl & Ht & Hsame).
    assert (Hlp : lp <> tp).
    { intros ->. apply (Hdisj tp); apply list_elem_of_here. }
    destruct (IH locals (<[tp := blend tau ld td]> h)) as (h' & Hrun & Hblend & Hframe).
    + simpl in Hlen. lia.
    + exact Hnodup.
    + intros l Hin Hin'. apply (Hdisj l); [right; exact Hin | right; exact Hin'].
    + intros i tp' lp' Htp' Hlp'.
      destruct (Halloc (S i) tp' lp' Htp' Hlp') as (ld' & td' & Hl' & Ht' & Hsame').
      exists ld', td'.
      rewrite !lookup_insert_ne by eauto using tail_target_differs, tail_local_differs.
      auto.
    + exists h'. split; [| split].
      * unfold DDGP.soft_update in *. simpl in *. unfold bind at 1.
        rewrite (soft_update_round tau tp lp ld td) by assumption.
        exact Hrun.
      * intros i tp' lp' ld' td' Htp' Hlp' Hl' Ht'.
        destruct i as [| i]; simpl in Htp', Hlp'.
        -- injection Htp' as <-. injection Hlp' as <-.
           rewrite (Hframe tp Hfresh), lookup_insert_eq. congruence.
        -- apply (Hblend i tp' lp'); try assumption.
           ++ rewrite lookup_insert_ne by eauto using tail_local_differs. exact Hl'.
           ++ rewrite lookup_insert_ne by eauto using tail_target_differs. exact Ht'.
      * intros l Hnot. rewrite Hframe.
        -- apply lookup_insert_ne. intros ->. apply Hnot. left.
        -- intros Hin. apply Hnot. right. exact Hin.
Qed.

(** C3, as amended.  For two models that share no parameter (a parameter
    occurring once in the target), with as many parameters in each and
    corresponding parameters of the same shape, [soft_update(local_model, target_model, tau)]
    raises nothing and leaves in each target parameter
    [tau * local + (1 - tau) * target], computed from the values before
    the call; the parameters of the local model, and every tensor that is
    not a target parameter, keep their values. *)
Theorem soft_update_moving_average
  (local_model target_model : Network) (tau : Float.t) (h : gmap loc tensor) :
  length (parameters local_model) = length (parameters target_model) ->
  NoDup (parameters target_model) ->
  (forall l, l ∈ parameters local_model -> l ∉ parameters target_model) ->
  (forall i tp lp,
     parameters target_model !! i = Some tp -> parameters local_model !! i = Some lp ->
     exists ld td, h !! lp = Some ld /\ h !! tp = Some td /\ length ld = length td) ->
  exists h',
    DDGP.soft_update local_model target_model tau h = (inr tt, h')
    /\ (forall i tp lp ld td,
          parameters target_model !! i = Some tp ->
          parameters local_model !! i = Some lp ->
          h !! lp = Some ld -> h !! tp = Some td ->
          h' !! tp
          = Some (zip_with Float.add (map (Float.mul tau) ld)
                    (map (Float.mul (Float.Fin 1 - tau)) td)))
    /\ (forall lp, lp ∈ parameters local_model -> h' !! lp = h !! lp)
    /\ (forall l, l ∉ parameters target_model -> h' !! l = h !! l).
Proof.
  destruct local_model as [locals b], target_model as [targets b']. simpl.
  intros Hlen Hnodup Hdisj Halloc.
  destruct (soft_update_lists tau b b' targets locals h Hlen Hnodup Hdisj Halloc)
    as (h' & Hrun & Hblend & Hframe).
  exists h'. split; [exact Hrun |]. split; [exact Hblend |].
  split; [| exact Hframe].
  intros lp Hin. apply Hframe, Hdisj, Hin.
Qed.

(** C3, as stated, fails for models that share tensors.  With a local model
    holding the tensors 1 and 3 and a target model holding the same two in
    the opposite order, all of one shape, and [tau = 1/2], the second
    round reads what the first wrote: the target parameter that the
    claim's formula puts at [1/2 * 3 + 1/2 * 1 = 2] ends at 3/2, and the
    local parameter that was 3 has become 2. *)
Lemma soft_update_shared_parameters_counterexample :
  length (parameters Tour.crossed_local) = length (parameters Tour.crossed_target)
  /\ Tour.shared_store !! 0%nat = Some [Float.Fin 1]
  /\ Tour.shared_store !! 1%nat = Some [Float.Fin 3]
  /\ fst (DDGP.soft_update Tour.crossed_local Tour.crossed_target (Float.Fin (1 # 2))
            Tour.shared_store) = inr tt
  /\ match snd (DDGP.soft_update Tour.crossed_local Tour.crossed_target
                  (Float.Fin (1 # 2)) Tour.shared_store) !! 0%nat with
     | Some [Float.Fin q] =>
         (q == (3 # 2))%Q /\ ~ (q == (1 # 2) * 3 + (1 - (1 # 2)) * 1)%Q
     | _ => False
     end
  /\ match snd (DDGP.soft_update Tour.crossed_local Tour.crossed_target
                  (Float.Fin (1 # 2)) Tour.shared_store) !! 1%nat with
     | Some [Float.Fin q] => (q == 2)%Q /\ ~ (q == 3)%Q
     | _ => False
     end.
Proof.
  split; [reflexivity |]. split; [reflexivity |]. split; [reflexivity |].
  split; [reflexivity |].
  split; vm_compute; (split; [reflexivity | discriminate]).
Qed.

(** ** The exploration noise *)

Lemma randoms_next_floats (n : nat) (g : Random.Rng) :
  Random.randoms n g = (inr (next_floats n g), skip n g).
Proof.
  revert g. induction n as [| n IH]; intros g.
  - reflexivity.
  - simpl. unfold bind, Random.random. rewrite IH. unfold ret, next_floats.
    simpl. rewrite <- seq_shift, map_map. reflexivity.
Qed.

Lemma ltb_Fin (p q : Q) : (p < q)%Q -> Float.ltb (Float.Fin p) (Float.Fin q) = true.
Proof.
  intros Hlt. destruct (Qlt_alt p q) as [Hcmp _]. specialize (Hcmp Hlt).
  simpl. rewrite Hcmp. reflexivity.
Qed.

Lemma resolution_positive : Z.of_N Random.resolution = Z.pos (2 ^ 53).
Proof. reflexivity. Qed.

(** [random.random()] is never negative and always below one. *)
Lemma unit_float_range (k : N) :
  Float.leb (Float.Fin 0) (Random.unit_float k) = true
  /\ Float.ltb (Random.unit_float k) (Float.Fin 1) = true.
Proof.
  unfold Random.unit_float.
  assert (Hlt : (k mod Random.resolution < Random.resolution)%N)
    by (apply N.mod_lt; discriminate).
  apply N2Z.inj_lt in Hlt. rewrite resolution_positive in Hlt.
  pose proof (N2Z.is_nonneg (k mod Random.resolution)) as Hnn.
  split.
  - apply leb_Fin. unfold Qle. simpl. lia.
  - apply ltb_Fin. unfold Qlt. simpl. lia.
Qed.

Lemma next_floats_range (n : nat) (g : Random.Rng) :
  Forall (fun v => Float.leb (Float.Fin 0) v = true /\ Float.ltb v (Float.Fin 1) = true)
    (next_floats n g).
Proof.
  unfold next_floats. apply Forall_forall. intros v Hin.
  apply list_elem_of_In, in_map_iff in Hin. destruct Hin as (i & <- & _).
  apply unit_float_range.
Qed.

Lemma sum_numerators_closed_form (n : N) :
  (n <= Random.resolution)%N ->
  2 * sum_numerators n = Z.of_N n * (Z.of_N n - 1).
Proof.
  unfold sum_numerators. induction n as [| n IH] using N.peano_ind; intros Hle.
  - reflexivity.
  - rewrite N.recursion_succ; [| reflexivity | intros ? ? -> ? ? ->; reflexivity].
    rewrite N.mod_small by lia.
    rewrite Z.mul_add_distr_l, IH by lia. lia.
Qed.

(** The mean of [random.random()] is [1/2 - 2^-54]: it is not zero. *)
Lemma mean_of_random_value :
  (mean_of_random == (2 ^ 53 - 1) # 2 ^ 54)%Q /\ (0 < mean_of_random)%Q.
Proof.
  pose proof (sum_numerators_closed_form Random.resolution (N.le_refl _)) as Hsum.
  rewrite resolution_positive in Hsum.
  unfold mean_of_random. rewrite resolution_positive.
  generalize dependent (sum_numerators Random.resolution). intros total Hsum.
  assert (Hmean : ((total # 2 ^ 53) / inject_Z (Z.pos (2 ^ 53)) == (2 ^ 53 - 1) # 2 ^ 54)%Q).
  { change (2 ^ 53)%positive with 9007199254740992%positive in *.
    change (2 ^ 54)%positive with 18014398509481984%positive.
    unfold Qdiv, Qinv, Qmult, Qeq, inject_Z. simpl Qnum. simpl Qden. lia. }
  split; [exact Hmean |]. rewrite Hmean. reflexivity.
Qed.

Lemma sample_effect (noise : OUNoise.t) (g : Random.Rng) :
  length (OUNoise.mu noise) = length (OUNoise.state noise) ->
  let x := OUNoise.state noise in
  let w := next_floats (length x) g in
  let x' :=
    zip_with Float.add x
      (zip_with Float.add
         (map (Float.mul (OUNoise.theta noise)) (zip_with Float.sub (OUNoise.mu noise) x))
         (map (Float.mul (OUNoise.sigma noise)) w)) in
  OUNoise.sample (noise, g)
  = (inr x', (OUNoise.set_state x' noise, skip (length x) g)).
Proof.
  intros Hlen. cbv zeta.
  assert (Hw : length (next_floats (length (OUNoise.state noise)) g)
               = length (OUNoise.state noise)).
  { unfold next_floats. rewrite length_map, length_seq. reflexivity. }
  unfold OUNoise.sample, bind, gets, zoom, lift_result, modify, ret. simpl.
  rewrite (elementwise_same_length Float.sub) by exact Hlen.
  rewrite randoms_next_floats. simpl.
  rewrite (elementwise_same_length Float.add).
  2:{ unfold Numpy.scale. rewrite !length_map, length_zip_with, Hw. lia. }
  rewrite (elementwise_same_length Float.add).
  2:{ unfold Numpy.scale. rewrite !length_zip_with, !length_map, length_zip_with, Hw.
      lia. }
  reflexivity.
Qed.

(** The noise made by [OUNoise(size, seed, mu, theta, sigma)] has a state
    of the length of [mu], and [sample] and [reset] keep it so. *)
Lemma OUNoise_init_shape (twister : Z -> Random.Rng) (size : nat) (seed : Z)
  (mu theta sigma : Float.t) (g : Random.Rng) :
  exists noise,
    OUNoise.init twister size seed mu theta sigma g = (inr noise, twister seed)
    /\ length (OUNoise.mu noise) = size
    /\ OUNoise.state noise = OUNoise.mu noise.
Proof.
  eexists. split; [reflexivity |]. simpl.
  unfold Numpy.scale, Numpy.ones. rewrite length_map, repeat_length.
  split; reflexivity.
Qed.

Lemma OUNoise_sample_shape (noise : OUNoise.t) (g : Random.Rng) :
  length (OUNoise.mu noise) = length (OUNoise.state noise) ->
  length (OUNoise.mu (fst (snd (OUNoise.sample (noise, g)))))
  = length (OUNoise.state (fst (snd (OUNoise.sample (noise, g))))).
Proof.
  intros Hlen. rewrite (sample_effect noise g Hlen). simpl.
  rewrite !length_zip_with, !length_map, length_zip_with.
  unfold next_floats. rewrite length_map, length_seq. lia.
Qed.

(** C5. What the code does, against the claim.  Each [sample()] takes the
    state from [x] to [x + (theta * (mu - x) + sigma * w)] and returns it,
    and [reset()] puts the state back to [mu], as claimed; but [w], of the
    length of the state, holds outputs of [random.random()]: each lies in
    [0, 1), none is negative, so the increments are not zero-mean (see
    [mean_of_random_value]). *)
Theorem OUNoise_sample_adds_unit_interval_increments
  (noise : OUNoise.t) (g : Random.Rng) :
  length (OUNoise.mu noise) = length (OUNoise.state noise) ->
  let x := OUNoise.state noise in
  let w := next_floats (length x) g in
  let x' :=
    zip_with Float.add x
      (zip_with Float.add
         (map (Float.mul (OUNoise.theta noise)) (zip_with Float.sub (OUNoise.mu noise) x))
         (map (Float.mul (OUNoise.sigma noise)) w)) in
  OUNoise.sample (noise, g) = (inr x', (OUNoise.set_state x' noise, skip (length x) g))
  /\ length w = length x
  /\ Forall (fun v => Float.leb (Float.Fin 0) v = true /\ Float.ltb v (Float.Fin 1) = true) w
  /\ OUNoise.state (OUNoise.reset noise) = OUNoise.mu noise.
Proof.
  intros Hlen x w x'.
  split; [apply sample_effect; exact Hlen |].
  split; [unfold w, next_floats; rewrite length_map, length_seq; reflexivity |].
  split; [apply next_floats_range | reflexivity].
Qed.

(** ** The action *)

Lemma clip_component (x : Float.t) :
  let y := Numpy.minimum (Numpy.maximum x (Float.Fin (-1))) (Float.Fin 1) in
  Float.isnan y = true \/ Float.between (Float.Fin (-1)) (Float.Fin 1) y.
Proof.
  unfold Numpy.minimum, Numpy.maximum, Float.between.
  destruct x as [| | q |]; simpl; auto.
  destruct (-1 ?= q)%Q eqn:Hlo; simpl; auto.
  destruct (q ?= 1)%Q eqn:Hhi; simpl; rewrite ?Hlo, ?Hhi; auto.
Qed.

Lemma clip_components (pre : array) :
  Forall (fun v => Float.isnan v = true
                   \/ Float.between (Float.Fin (-1)) (Float.Fin 1) v)
    (Numpy.clip pre (Float.Fin (-1)) (Float.Fin 1)).
Proof.
  unfold Numpy.clip. induction pre as [| x pre IH]; simpl; constructor.
  - apply clip_component.
  - exact IH.
Qed.

(** Whatever [act] returns went through [np.clip] last. *)
Lemma act_returns_clipped (lib : Library) (state : array) (add_noise : bool)
  (s s' : DDGP.t * World) (out : array) :
  DDGP.act lib state add_noise s = (inr out, s') ->
  exists pre, out = Numpy.clip pre (DDGP.literal (-1)) (DDGP.literal 1).
Proof.
  destruct s as [a w].
  unfold DDGP.act, bind, DDGP.on_self, modify, get, gets, ret, lift_result. simpl.
  destruct (Actor_forward lib (heap w) _ state) as [err | action]; [discriminate |].
  destruct add_noise.
  - unfold DDGP.on_noise, zoom. simpl.
    destruct (OUNoise.sample _) as [[err | sampled] [n g]]; [discriminate |]. simpl.
    destruct (Numpy.iadd action _) as [err | noisy]; [discriminate |].
    intros Heq. injection Heq as <- _. eexists. reflexivity.
  - intros Heq. injection Heq as <- _. eexists. reflexivity.
Qed.

(** C8, as amended.  Every component of an array returned by [act], with
    or without noise, is NaN or lies in the closed interval [-1, 1]. *)
Theorem act_components_in_unit_box_or_nan
  (lib : Library) (state : array) (add_noise : bool) (s s' : DDGP.t * World)
  (out : array) :
  DDGP.act lib state add_noise s = (inr out, s') ->
  Forall (fun v => Float.isnan v = true
                   \/ Float.between (Float.Fin (-1)) (Float.Fin 1) v) out.
Proof.
  intros Hact. destruct (act_returns_clipped _ _ _ _ _ _ Hact) as (pre & ->).
  apply clip_components.
Qed.

(** C8, as stated, fails: for a state holding NaN the one-weight actor
    answers NaN, [np.clip] passes it on, and NaN is not within [-1, 1];
    this with the noise added and without. *)
Lemma act_returns_nan_counterexample :
  (exists (out : array) (s' : DDGP.t * World),
     DDGP.act Example.lib [Float.NaN] true (Example.agent, Example.world1)
     = (inr out, s')
     /\ ~ Forall (Float.between (Float.Fin (-1)) (Float.Fin 1)) out)
  /\ (exists (out : array) (s' : DDGP.t * World),
        DDGP.act Example.lib [Float.NaN] false (Example.agent, Example.world1)
        = (inr out, s')
        /\ ~ Forall (Float.between (Float.Fin (-1)) (Float.Fin 1)) out).
Proof.
  assert (Hnan : ~ Forall (Float.between (Float.Fin (-1)) (Float.Fin 1)) [Float.NaN]).
  { intros Hall. inversion Hall as [| v rest [Hlo _] _]. discriminate Hlo. }
  split.
  - exists [Float.NaN].
    exists (snd (DDGP.act Example.lib [Float.NaN] true (Example.agent, Example.world1))).
    split; [vm_compute; reflexivity | exact Hnan].
  - exists [Float.NaN].
    exists (snd (DDGP.act Example.lib [Float.NaN] false (Example.agent, Example.world1))).
    split; [vm_compute; reflexivity | exact Hnan].
Qed.

(** ** The theorems at work on the small agent *)

Lemma example_init :
  DDGP.init Example.lib Example.config Example.world
  = (inr Example.agent, Example.world1).
Proof. vm_compute. reflexivity. Defined.

Lemma example_buffer_init :
  ReplayBuffer.init (twister Example.lib) 2 7 (rng Example.world)
  = (inr (ReplayBuffer.mk (Deque.new 2) None), twister Example.lib 7).
Proof. reflexivity. Defined.

(** A buffer of capacity 2 holding [e2; e3] after three additions turns
    into [e3; e1] on the fourth. *)
Lemma replay_buffer_rotating_bounded_queue_witness :
  ReplayBuffer.init (twister Example.lib) 2 7 (rng Example.world)
  = (inr (ReplayBuffer.mk (Deque.new 2) None), twister Example.lib 7)
  /\ Deque.items
       (ReplayBuffer.memory
          (ReplayBuffer.add_experience
             (ReplayBuffer.add_all (ReplayBuffer.mk (Deque.new 2) None)
                [Example.e1; Example.e2; Example.e3])
             Example.e1))
     = [Example.e3; Example.e1].
Proof.
  split; [exact example_buffer_init |].
  destruct (replay_buffer_rotating_bounded_queue
              (twister Example.lib) 2 7 (rng Example.world) (twister Example.lib 7)
              (ReplayBuffer.mk (Deque.new 2) None)
              [Example.e1; Example.e2; Example.e3] Example.e1 example_buffer_init)
    as (_ & _ & Hfull).
  destruct (Hfull eq_refl) as [_ Hrotate].
  exact (Hrotate Example.e2 [Example.e3] eq_refl).
Defined.

Lemma replay_buffer_sample_raises_attribute_error_witness :
  ReplayBuffer.init (twister Example.lib) 2 7 (rng Example.world)
  = (inr (ReplayBuffer.mk (Deque.new 2) None), twister Example.lib 7)
  /\ ReplayBuffer.sample
       (ReplayBuffer.add_all (ReplayBuffer.mk (Deque.new 2) None)
          [Example.e1; Example.e2])
       (twister Example.lib 7)
     = (inl (AttributeError "ReplayBuffer" "batch_size"), twister Example.lib 7).
Proof.
  split; [exact example_buffer_init |].
  exact (replay_buffer_sample_raises_attribute_error
           (twister Example.lib) 2 7 (rng Example.world) (twister Example.lib 7)
           (ReplayBuffer.mk (Deque.new 2) None) [Example.e1; Example.e2]
           (twister Example.lib 7) example_buffer_init).
Defined.

(** With two experiences stored and a batch size of one, [trigger_learn]
    raises. *)
Lemma trigger_learn_raises_attribute_error_witness :
  DDGP.init Example.lib Example.config Example.world
  = (inr Example.agent, Example.world1)
  /\ Z.of_nat (ReplayBuffer.len
                 (DDGP.memory
                    (fst (DDGP.session Example.lib Example.calls
                            (Example.agent, Example.world1)))))
     > DDGP.batch_size
         (DDGP.config
            (fst (DDGP.session Example.lib Example.calls
                    (Example.agent, Example.world1))))
  /\ exists err,
       fst (DDGP.trigger_learn Example.lib
              (DDGP.session Example.lib Example.calls (Example.agent, Example.world1)))
       = inl err
       /\ is_library_error err = false.
Proof.
  assert (Hlen :
    Z.of_nat (ReplayBuffer.len
                (DDGP.memory
                   (fst (DDGP.session Example.lib Example.calls
                           (Example.agent, Example.world1)))))
    > DDGP.batch_size
        (DDGP.config
           (fst (DDGP.session Example.lib Example.calls
                   (Example.agent, Example.world1))))).
  { vm_compute. reflexivity. }
  split; [exact example_init |]. split; [exact Hlen |].
  destruct (trigger_learn_raises_attribute_error
              Example.lib Example.config Example.world Example.world1 Example.agent
              Example.calls example_init Hlen)
    as (err & Hraise & _ & Hown & _).
  exists err. split; [exact Hraise | exact Hown].
Defined.

Lemma learn_raises_before_soft_update_witness :
  DDGP.init Example.lib Example.config Example.world
  = (inr Example.agent, Example.world1)
  /\ heap (snd (snd (DDGP.learn Example.lib
                       (DDGP.session Example.lib Example.calls
                          (Example.agent, Example.world1)))))
     = heap (snd (DDGP.session Example.lib Example.calls
                    (Example.agent, Example.world1))).
Proof.
  split; [exact example_init |].
  exact (proj1 (proj2 (learn_raises_before_soft_update
                         Example.lib Example.config Example.world Example.world1
                         Example.agent Example.calls example_init))).
Defined.

Lemma exploration_decays_within_unit_interval_witness :
  DDGP.init Example.lib Example.config Example.world
  = (inr Example.agent, Example.world1)
  /\ exists q : Q,
       DDGP.exploration
         (fst (DDGP.session Example.lib (Example.calls ++ [DDGP.TriggerLearn])
                 (Example.agent, Example.world1)))
       = Float.Fin q
       /\ (0 < q)%Q /\ (q <= 1)%Q.
Proof.
  split; [exact example_init |].
  exact (proj1 (proj2 (exploration_decays_within_unit_interval
                         Example.lib Example.config Example.world Example.world1
                         Example.agent (Example.calls ++ [DDGP.TriggerLearn])
                         DDGP.Learn example_init))).
Defined.

Lemma train_flag_follows_step_counter_witness :
  DDGP.init Example.lib Example.config Example.world
  = (inr Example.agent, Example.world1)
  /\ DDGP.step_mem
       (fst (snd (DDGP.update_counter
                    (DDGP.session Example.lib Example.calls
                       (Example.agent, Example.world1)))))
     = DDGP.step_mem
         (fst (DDGP.session Example.lib Example.calls (Example.agent, Example.world1)))
       + 1.
Proof.
  split; [exact example_init |].
  exact (proj1 (proj1 (train_flag_follows_step_counter
                         Example.lib Example.config Example.world Example.world1
                         Example.agent Example.calls example_init))).
Defined.

Lemma example_models_apart :
  forall l : loc,
    l ∈ parameters Example.local_model -> l ∉ parameters Example.target_model.
Proof.
  intros l Hl Ht. simpl in Hl, Ht.
  apply list_elem_of_singleton in Hl. apply list_elem_of_singleton in Ht.
  congruence.
Defined.

Lemma example_models_allocated :
  forall (i : nat) (tp lp : loc),
    parameters Example.target_model !! i = Some tp ->
    parameters Example.local_model !! i = Some lp ->
    exists ld td,
      Example.store !! lp = Some ld /\ Example.store !! tp = Some td
      /\ length ld = length td.
Proof.
  intros [| i] tp lp Ht Hl; simpl in Ht, Hl; [| discriminate].
  injection Ht as <-. injection Hl as <-.
  exists [Float.Fin 1; Float.Fin 2], [Float.Fin 3; Float.Fin 5].
  repeat split; reflexivity.
Defined.

(** With [tau = 1/4], the target [3; 5] moves a quarter of the way to the
    local [1; 2], which stays. *)
Lemma soft_update_moving_average_witness :
  exists h',
    DDGP.soft_update Example.local_model Example.target_model (Float.Fin (1 # 4))
      Example.store = (inr tt, h')
    /\ h' !! 1%nat
       = Some (zip_with Float.add
                 (map (Float.mul (Float.Fin (1 # 4))) [Float.Fin 1; Float.Fin 2])
                 (map (Float.mul (Float.Fin 1 - Float.Fin (1 # 4)))
                    [Float.Fin 3; Float.Fin 5]))
    /\ h' !! 0%nat = Some [Float.Fin 1; Float.Fin 2].
Proof.
  destruct (soft_update_moving_average
              Example.local_model Example.target_model (Float.Fin (1 # 4)) Example.store
              eq_refl (NoDup_singleton 1%nat)
              example_models_apart example_models_allocated)
    as (h' & Hrun & Hblend & Hlocal & _).
  exists h'. split; [exact Hrun |]. split.
  - exact (Hblend 0%nat 1%nat 0%nat [Float.Fin 1; Float.Fin 2] [Float.Fin 3; Float.Fin 5]
             eq_refl eq_refl eq_refl eq_refl).
  - etransitivity; [apply (Hlocal 0%nat), list_elem_of_here | reflexivity].
Defined.

Lemma OUNoise_sample_adds_unit_interval_increments_witness :
  length (OUNoise.mu (OUNoise.mk [Float.Fin 0] (Float.Fin 0.15) (Float.Fin 0.2) [Float.Fin 0]))
  = length (OUNoise.state (OUNoise.mk [Float.Fin 0] (Float.Fin 0.15) (Float.Fin 0.2) [Float.Fin 0]))
  /\ fst (OUNoise.sample
            (OUNoise.mk [Float.Fin 0] (Float.Fin 0.15) (Float.Fin 0.2) [Float.Fin 0],
             twister Example.lib 7))
     = inr [(Float.Fin 0
             + (Float.Fin 0.15 * (Float.Fin 0 - Float.Fin 0)
                + Float.Fin 0.2 * Float.Fin (7 # 2 ^ 53)))%float].
Proof.
  split; [reflexivity |].
  rewrite (proj1 (OUNoise_sample_adds_unit_interval_increments
                    (OUNoise.mk [Float.Fin 0] (Float.Fin 0.15) (Float.Fin 0.2) [Float.Fin 0])
                    (twister Example.lib 7) eq_refl)).
  reflexivity.
Defined.

(** A state of 3 gives the action [0.5 * 3] plus noise, clipped to 1. *)
Lemma act_components_in_unit_box_or_nan_witness :
  DDGP.act Example.lib [Float.Fin 3] true (Example.agent, Example.world1)
  = (inr [Float.Fin 1],
     snd (DDGP.act Example.lib [Float.Fin 3] true (Example.agent, Example.world1)))
  /\ Forall (fun v => Float.isnan v = true
                      \/ Float.between (Float.Fin (-1)) (Float.Fin 1) v)
       [Float.Fin 1].
Proof.
  assert (Hact :
    DDGP.act Example.lib [Float.Fin 3] true (Example.agent, Example.world1)
    = (inr [Float.Fin 1],
       snd (DDGP.act Example.lib [Float.Fin 3] true (Example.agent, Example.world1)))).
  { vm_compute. reflexivity. }
  split; [exact Hact |].
  exact (act_components_in_unit_box_or_nan
           Example.lib [Float.Fin 3] true (Example.agent, Example.world1) _ _ Hact).
Defined.

(** * Further properties *)

(** ** The replay buffer as a sliding window *)

Lemma add_experience_window (rb : ReplayBuffer.t) (e : Experience) :
  (ReplayBuffer.len rb <= Deque.maxlen (ReplayBuffer.memory rb))%nat ->
  Deque.items (ReplayBuffer.memory (ReplayBuffer.add_experience rb e))
  = drop (length (Deque.items (ReplayBuffer.memory rb) ++ [e])
          - Deque.maxlen (ReplayBuffer.memory rb))
      (Deque.items (ReplayBuffer.memory rb) ++ [e]).
Proof.
  unfold ReplayBuffer.len, Deque.len. intros Hle.
  rewrite add_experience_items. cbv zeta. rewrite length_app. simpl.
  destruct (Nat.ltb_spec (Deque.maxlen (ReplayBuffer.memory rb))
              (length (Deque.items (ReplayBuffer.memory rb)) + 1)) as [Hlt | Hge].
  - replace (length (Deque.items (ReplayBuffer.memory rb)) + 1
             - Deque.maxlen (ReplayBuffer.memory rb))%nat with 1%nat by lia.
    destruct (Deque.items (ReplayBuffer.memory rb) ++ [e]); reflexivity.
  - replace (length (Deque.items (ReplayBuffer.memory rb)) + 1
             - Deque.maxlen (ReplayBuffer.memory rb))%nat with 0%nat by lia.
    reflexivity.
Qed.

Lemma drop_window {A} (l es : list A) (m : nat) :
  drop (length (drop (length l - m) l ++ es) - m) (drop (length l - m) l ++ es)
  = drop (length (l ++ es) - m) (l ++ es).
Proof.
  rewrite !length_app, length_drop.
  destruct (Nat.le_gt_cases (length l) m) as [Hle | Hgt].
  - replace (length l - m)%nat with 0%nat by lia. simpl.
    f_equal. lia.
  - replace (length l - (length l - m) + length es - m)%nat with (length es) by lia.
    replace (length l + length es - m)%nat with ((length l - m) + length es)%nat by lia.
    rewrite <- drop_drop.
    rewrite (drop_app_le l es (length l - m)) by lia.
    reflexivity.
Qed.

Lemma add_all_window (es : list Experience) :
  forall rb : ReplayBuffer.t,
    (ReplayBuffer.len rb <= Deque.maxlen (ReplayBuffer.memory rb))%nat ->
    Deque.items (ReplayBuffer.memory (ReplayBuffer.add_all rb es))
    = drop (length (Deque.items (ReplayBuffer.memory rb) ++ es)
            - Deque.maxlen (ReplayBuffer.memory rb))
        (Deque.items (ReplayBuffer.memory rb) ++ es).
Proof.
  induction es as [| e es IH]; intros rb Hle; simpl.
  - rewrite app_nil_r.
    unfold ReplayBuffer.len, Deque.len in Hle.
    replace (length (Deque.items (ReplayBuffer.memory rb))
             - Deque.maxlen (ReplayBuffer.memory rb))%nat with 0%nat by lia.
    reflexivity.
  - rewrite IH by (rewrite add_experience_maxlen; apply add_experience_bounded, Hle).
    rewrite add_experience_maxlen, add_experience_window by exact Hle.
    rewrite drop_window. rewrite <- app_assoc. reflexivity.
Qed.

(** X1. A buffer made by [ReplayBuffer(buffer_size, seed)] to which the
    experiences [es] were added in turn holds the last [buffer_size] of
    them, oldest first (all of them when there are fewer). *)
Theorem replay_buffer_holds_latest
  (twister : Z -> Random.Rng) (buffer_size : nat) (seed : Z) (g g' : Random.Rng)
  (rb0 : ReplayBuffer.t) (es : list Experience) :
  ReplayBuffer.init twister buffer_size seed g = (inr rb0, g') ->
  Deque.items (ReplayBuffer.memory (ReplayBuffer.add_all rb0 es))
  = drop (length es - buffer_size) es
  /\ ReplayBuffer.len (ReplayBuffer.add_all rb0 es) = Nat.min (length es) buffer_size.
Proof.
  rewrite replay_buffer_init. intros Hinit. injection Hinit as <- _.
  assert (Hitems :
    Deque.items (ReplayBuffer.memory
                   (ReplayBuffer.add_all (ReplayBuffer.mk (Deque.new buffer_size) None) es))
    = drop (length es - buffer_size) es).
  { rewrite add_all_window by (unfold ReplayBuffer.len, Deque.len; simpl; lia).
    reflexivity. }
  split; [exact Hitems |].
  unfold ReplayBuffer.len, Deque.len. rewrite Hitems, length_drop. lia.
Qed.

(** ** The agent's memory *)

Lemma call_memory (lib : Library) (c : DDGP.Call) (a : DDGP.t) (w : World) :
  ReplayBuffer.batch_size (DDGP.memory a) = None ->
  DDGP.memory (fst (snd (DDGP.call lib c (a, w))))
  = ReplayBuffer.add_all (DDGP.memory a) (memorized [c]).
Proof.
  intros Hnone.
  destruct c as [st x r st' d | | | st b | | | l tg tau | path i].
  - reflexivity.
  - simpl. rewrite trigger_learn_without_batch_size by exact Hnone.
    destruct (_ >? _); reflexivity.
  - simpl. rewrite update_counter_effect.
    destruct (_ =? 0); [| destruct (_ =? 0)]; reflexivity.
  - rewrite call_act_state.
    pose proof (act_bookkeeping lib st b (a, w)) as Hbk.
    unfold bookkeeping in Hbk. injection Hbk as _ Hm _ _ _. exact Hm.
  - reflexivity.
  - simpl. rewrite learn_without_batch_size by exact Hnone. reflexivity.
  - simpl. rewrite soft_update_bookkeeping. reflexivity.
  - simpl. rewrite (proj1 (save_frame lib a w path i)). reflexivity.
Qed.

Lemma add_all_app (rb : ReplayBuffer.t) (es es' : list Experience) :
  ReplayBuffer.add_all rb (es ++ es')
  = ReplayBuffer.add_all (ReplayBuffer.add_all rb es) es'.
Proof. unfold ReplayBuffer.add_all. apply fold_left_app. Qed.

Lemma memorized_cons (c : DDGP.Call) (calls : list DDGP.Call) :
  memorized (c :: calls) = memorized [c] ++ memorized calls.
Proof. unfold memorized. simpl. rewrite app_nil_r. reflexivity. Qed.

Lemma session_memory (lib : Library) (calls : list DDGP.Call) :
  forall s : DDGP.t * World,
    invariant s ->
    DDGP.memory (fst (DDGP.session lib calls s))
    = ReplayBuffer.add_all (DDGP.memory (fst s)) (memorized calls).
Proof.
  induction calls as [| c calls IH]; intros [a w] Hinv.
  - reflexivity.
  - change (DDGP.session lib (c :: calls) (a, w))
      with (DDGP.session lib calls (snd (DDGP.call lib c (a, w)))).
    rewrite IH by (apply invariant_call, Hinv).
    rewrite call_memory by apply Hinv.
    rewrite <- add_all_app, <- memorized_cons. reflexivity.
Qed.

(** X2. Whatever else is called in between, the replay buffer of an agent
    made by [__init__] holds the experiences of the last [buffer_size]
    [memorize] calls, oldest first, and its length is the smaller of
    [buffer_size] and the number of [memorize] calls. *)
Theorem agent_memory_holds_latest_memorized
  (lib : Library) (c : DDGP.Config) (w0 w : World) (a : DDGP.t)
  (calls : list DDGP.Call) :
  DDGP.init lib c w0 = (inr a, w) ->
  let rb := DDGP.memory (fst (DDGP.session lib calls (a, w))) in
  Deque.items (ReplayBuffer.memory rb)
  = drop (length (memorized calls) - DDGP.buffer_size c) (memorized calls)
  /\ ReplayBuffer.len rb = Nat.min (length (memorized calls)) (DDGP.buffer_size c).
Proof.
  intros Hinit rb.
  destruct (init_agent lib c w0 w a Hinit) as (_ & Hm & _).
  assert (Hitems : Deque.items (ReplayBuffer.memory rb)
                   = drop (length (memorized calls) - DDGP.buffer_size c)
                       (memorized calls)).
  { unfold rb. rewrite session_memory by (apply (invariant_init lib c w0), Hinit).
    simpl. rewrite Hm.
    rewrite add_all_window by (unfold ReplayBuffer.len, Deque.len; simpl; lia).
    reflexivity. }
  split; [exact Hitems |].
  unfold ReplayBuffer.len, Deque.len. rewrite Hitems, length_drop. lia.
Qed.

(** ** The step counter between resets *)

Lemma threshold_step (k j : Z) :
  k <> 0 -> 0 <= j ->
  (Z.abs k <=? j + 1) = ((j + 1) mod k =? 0) || (Z.abs k <=? j).
Proof.
  intros Hk Hj.
  destruct (Z.leb_spec (Z.abs k) j) as [Hle | Hgt].
  - rewrite orb_true_r. apply Z.leb_le. lia.
  - rewrite orb_false_r.
    destruct (Z.eqb_spec ((j + 1) mod k) 0) as [Hmod | Hmod].
    + apply Z.leb_le. apply Z.mod_divide in Hmod; [| exact Hk].
      apply Z.divide_abs_l in Hmod. apply Z.divide_pos_le in Hmod; lia.
    + apply Z.leb_gt.
      assert (Hne : Z.abs k <> j + 1).
      { intros Heq. apply Hmod. apply Z.mod_divide; [exact Hk |].
        apply Z.divide_abs_l. rewrite Heq. apply Z.divide_refl. }
      lia.
Qed.

Lemma update_counters_from (lib : Library) (n : nat) :
  forall (s : DDGP.t * World) (j : Z),
    0 <= j ->
    DDGP.step_mem (fst s) = j ->
    DDGP.train (fst s)
    = negb (DDGP.learn_every (DDGP.config (fst s)) =? 0)
      && (Z.abs (DDGP.learn_every (DDGP.config (fst s))) <=? j) ->
    let s' := DDGP.session lib (repeat DDGP.UpdateCounter n) s in
    DDGP.config (fst s') = DDGP.config (fst s)
    /\ DDGP.step_mem (fst s') = j + Z.of_nat n
    /\ DDGP.train (fst s')
       = negb (DDGP.learn_every (DDGP.config (fst s)) =? 0)
         && (Z.abs (DDGP.learn_every (DDGP.config (fst s))) <=? j + Z.of_nat n).
Proof.
  induction n as [| n IH]; intros [a w] j Hj Hstep Htrain; simpl in Hstep, Htrain.
  - simpl. rewrite Z.add_0_r. auto.
  - change (DDGP.session lib (repeat DDGP.UpdateCounter (S n)) (a, w))
      with (DDGP.session lib (repeat DDGP.UpdateCounter n)
              (snd (DDGP.update_counter (a, w)))).
    cbv zeta.
    assert (Hnext :
      DDGP.config (fst (snd (DDGP.update_counter (a, w)))) = DDGP.config a
      /\ DDGP.step_mem (fst (snd (DDGP.update_counter (a, w)))) = j + 1
      /\ DDGP.train (fst (snd (DDGP.update_counter (a, w))))
         = negb (DDGP.learn_every (DDGP.config a) =? 0)
           && (Z.abs (DDGP.learn_every (DDGP.config a)) <=? j + 1)).
    { rewrite update_counter_effect. rewrite Hstep.
      destruct (Z.eqb_spec (DDGP.learn_every (DDGP.config a)) 0) as [Hz | Hnz]; simpl.
      - rewrite Htrain, Hz. auto.
      - rewrite (threshold_step _ j Hnz Hj).
        destruct (_ =? 0); simpl; [auto |].
        rewrite Htrain. destruct (Z.eqb_spec (DDGP.learn_every (DDGP.config a)) 0);
          [contradiction | auto]. }
    destruct Hnext as (Hc & Hs & Ht).
    destruct (IH (snd (DDGP.update_counter (a, w))) (j + 1)) as (Hc' & Hs' & Ht');
      [lia | exact Hs | rewrite Hc; exact Ht |].
    rewrite Hc in Hc', Ht'. simpl.
    split; [exact Hc' |].
    split; [rewrite Hs'; lia |].
    rewrite Ht'. f_equal. f_equal. lia.
Qed.

(** X3. After [reset()] and then [n] calls of [update_counter()], in any
    state of the agent, [step_mem] is [n], and [train] is set exactly when
    [learn_every] is not zero and [n] has reached its absolute value: the
    flag goes up at the [|learn_every|]-th step and stays up. *)
Theorem train_flag_raised_after_learn_every_steps
  (lib : Library) (s : DDGP.t * World) (n : nat) :
  let s' := DDGP.session lib (DDGP.Reset :: repeat DDGP.UpdateCounter n) s in
  DDGP.step_mem (fst s') = Z.of_nat n
  /\ DDGP.train (fst s')
     = negb (DDGP.learn_every (DDGP.config (fst s)) =? 0)
       && (Z.abs (DDGP.learn_every (DDGP.config (fst s))) <=? Z.of_nat n).
Proof.
  destruct s as [a w].
  change (DDGP.session lib (DDGP.Reset :: repeat DDGP.UpdateCounter n) (a, w))
    with (DDGP.session lib (repeat DDGP.UpdateCounter n) (snd (DDGP.reset (a, w)))).
  cbv zeta. rewrite reset_effect.
  destruct (update_counters_from lib n
              (DDGP.set_train false
                 (DDGP.set_step_mem 0
                    (DDGP.set_noise (OUNoise.reset (DDGP.noise a)) a)), w) 0)
    as (_ & Hs & Ht); [lia | reflexivity | |].
  - simpl. destruct (Z.eqb_spec (DDGP.learn_every (DDGP.config a)) 0) as [| Hnz];
      [reflexivity |]. simpl. symmetry. apply Z.leb_gt. lia.
  - simpl in Hs, Ht. split; [exact Hs | exact Ht].
Qed.

(** X4. With [learn_every = 0], [update_counter()] raises
    [ZeroDivisionError] from the modulo, after [step_mem] has been
    incremented; [train] and everything else stay as they were. *)
Theorem update_counter_divides_by_zero (a : DDGP.t) (w : World) :
  DDGP.learn_every (DDGP.config a) = 0 ->
  DDGP.update_counter (a, w)
  = (inl ZeroDivisionError, (DDGP.set_step_mem (DDGP.step_mem a + 1) a, w))
  /\ is_library_error ZeroDivisionError = false.
Proof.
  intros Hz. rewrite update_counter_effect, Hz. split; reflexivity.
Qed.

(** ** What [act] leaves alone *)

Lemma act_frame
  (lib : Library) (state : array) (add_noise : bool) (s : DDGP.t * World) :
  let s' := snd (DDGP.act lib state add_noise s) in
  bookkeeping (fst s') = bookkeeping (fst s)
  /\ wiring (fst s') = wiring (fst s)
  /\ heap (snd s') = heap (snd s)
  /\ files (snd s') = files (snd s)
  /\ globals (snd s') = globals (snd s)
  /\ (add_noise = false ->
      DDGP.noise (fst s') = DDGP.noise (fst s) /\ rng (snd s') = rng (snd s)).
Proof.
  destruct s as [a w].
  unfold DDGP.act, bind, DDGP.on_self, modify, get, gets, ret, lift_result. simpl.
  destruct (Actor_forward lib (heap w) _ state) as [err | out].
  { simpl. repeat (split || intro); reflexivity. }
  destruct add_noise; [| simpl; repeat (split || intro); reflexivity].
  unfold DDGP.on_noise, zoom. simpl.
  destruct (OUNoise.sample _) as [[err | sampled] [n g]]; simpl.
  { repeat (split || intro); reflexivity || discriminate. }
  destruct (Numpy.iadd out _); simpl;
    repeat (split || intro); reflexivity || discriminate.
Qed.

(** X5. [act] changes neither the parameter store, the files, the globals,
    the replay buffer, the counters, the exploration coefficient, the
    optimizers nor the parameter lists of the networks, whether it returns
    or raises; without noise it also leaves the noise state and Python's
    generator alone. *)
Theorem act_reads_only
  (lib : Library) (state : array) (add_noise : bool) (s : DDGP.t * World) :
  let s' := snd (DDGP.act lib state add_noise s) in
  bookkeeping (fst s') = bookkeeping (fst s)
  /\ wiring (fst s') = wiring (fst s)
  /\ heap (snd s') = heap (snd s)
  /\ files (snd s') = files (snd s)
  /\ globals (snd s') = globals (snd s)
  /\ (add_noise = false ->
      DDGP.noise (fst s') = DDGP.noise (fst s) /\ rng (snd s') = rng (snd s)).
Proof. exact (act_frame lib state add_noise s). Qed.

(** X6. [act] has no [try]/[finally] around the forward pass: a call that
    returns leaves the local actor in training mode, whatever its mode was
    before; a forward pass that raises leaves it in evaluation mode, and
    the error is passed on. *)
Theorem act_training_mode
  (lib : Library) (state : array) (add_noise : bool) (a : DDGP.t) (w : World) :
  (forall out s',
     DDGP.act lib state add_noise (a, w) = (inr out, s') ->
     training (DDGP.actor_local (fst s')) = true)
  /\ (forall err,
        Actor_forward lib (heap w)
          (mkNetwork (parameters (DDGP.actor_local a)) false) state = inl err ->
        DDGP.act lib state add_noise (a, w)
        = (inl err, (DDGP.set_training false a, w))).
Proof.
  unfold DDGP.act, bind, DDGP.on_self, modify, get, gets, ret, lift_result. simpl.
  split.
  - intros out s'.
    destruct (Actor_forward lib (heap w) _ state) as [err | action]; [discriminate |].
    destruct add_noise.
    + unfold DDGP.on_noise, zoom. simpl.
      destruct (OUNoise.sample _) as [[err | sampled] [n g]]; [discriminate |]. simpl.
      destruct (Numpy.iadd action _); [discriminate |].
      intros Heq. injection Heq as _ <-. reflexivity.
    + intros Heq. injection Heq as _ <-. reflexivity.
  - intros err Herr. rewrite Herr. reflexivity.
Qed.

(** ** What [trigger_learn] does below the threshold *)

(** X7. The test in [trigger_learn] is strict: with at most [batch_size]
    experiences stored (exactly [batch_size] included) it does not call
    [learn]; it returns, having cleared [train] and multiplied the
    exploration coefficient by 0.975, and changes nothing else. *)
Theorem trigger_learn_below_threshold (lib : Library) (a : DDGP.t) (w : World) :
  Z.of_nat (ReplayBuffer.len (DDGP.memory a)) <= DDGP.batch_size (DDGP.config a) ->
  DDGP.trigger_learn lib (a, w)
  = (inr tt,
     (DDGP.set_exploration (DDGP.exploration a * Float.Fin 0.975)%float
        (DDGP.set_train false a), w)).
Proof.
  intros Hle.
  unfold DDGP.trigger_learn, bind, DDGP.on_self, modify, gets, ret. simpl.
  destruct (Z.gtb_spec (Z.of_nat (ReplayBuffer.len (DDGP.memory a)))
              (DDGP.batch_size (DDGP.config a))); [lia | reflexivity].
Qed.

(** ** The parameter store *)

(** One round of the loop of [soft_update], whatever the store: it either
    leaves the store as it is, or replaces the tensor of the target
    parameter by one of the same length. *)
Lemma soft_update_round_frame (tau : Float.t) (tp lp : loc) (h : gmap loc tensor) :
  let round :=
    (do local_data <- Torch.read lp;
     do target_data <- Torch.read tp;
     do blended <- lift_result
                     (Numpy.elementwise Float.add
                        (Numpy.scale tau local_data)
                        (Numpy.scale (DDGP.literal 1 - tau) target_data));
     Torch.copy_ tp blended) h in
  snd round = h
  \/ exists old new, h !! tp = Some old /\ length new = length old
                     /\ snd round = <[tp := new]> h.
Proof.
  cbv zeta. unfold bind, Torch.read, lift_result, Torch.copy_, bind, Torch.read,
    modify, raise.
  destruct (h !! lp) as [ld |]; [| left; reflexivity].
  destruct (h !! tp) as [td |] eqn:Ht; [| left; reflexivity].
  destruct (Numpy.elementwise _ _ _) as [err | blended]; [left; reflexivity |].
  rewrite Ht.
  destruct (Nat.eqb_spec (length blended) (length td)) as [Heq | Hne].
  - right. exists td, blended. auto.
  - destruct blended as [| y [| z rest]]; [left; reflexivity | | left; reflexivity].
    right. exists td, (map (fun _ => y) td). rewrite length_map. auto.
Qed.

Lemma same_shapes_refl (h : gmap loc tensor) : same_shapes h h.
Proof. intros l. destruct (h !! l); reflexivity. Qed.

Lemma same_shapes_trans (h1 h2 h3 : gmap loc tensor) :
  same_shapes h1 h2 -> same_shapes h2 h3 -> same_shapes h1 h3.
Proof.
  intros H12 H23 l. specialize (H12 l). specialize (H23 l).
  destruct (h1 !! l), (h2 !! l), (h3 !! l); try tauto; congruence.
Qed.

Lemma same_shapes_insert (h : gmap loc tensor) (l : loc) (old new : tensor) :
  h !! l = Some old -> length new = length old -> same_shapes h (<[l := new]> h).
Proof.
  intros Hold Hlen l'. destruct (decide (l = l')) as [<- | Hne].
  - rewrite lookup_insert_eq, Hold. exact Hlen.
  - rewrite lookup_insert_ne by exact Hne. destruct (h !! l'); reflexivity.
Qed.

Lemma soft_update_cons (tau : Float.t) (b b' : bool) (tp lp : loc)
  (targets locals : list loc) (h : gmap loc tensor) :
  DDGP.soft_update (mkNetwork (lp :: locals) b) (mkNetwork (tp :: targets) b') tau h
  = match (do local_data <- Torch.read lp;
           do target_data <- Torch.read tp;
           do blended <- lift_result
                           (Numpy.elementwise Float.add
                              (Numpy.scale tau local_data)
                              (Numpy.scale (DDGP.literal 1 - tau) target_data));
           Torch.copy_ tp blended) h with
    | (inl e, h1) => (inl e, h1)
    | (inr _, h1) =>
        DDGP.soft_update (mkNetwork locals b) (mkNetwork targets b') tau h1
    end.
Proof. reflexivity. Qed.

Lemma soft_update_frame_lists (tau : Float.t) (b b' : bool) :
  forall (targets locals : list loc) (h : gmap loc tensor),
    let h' := snd (DDGP.soft_update (mkNetwork locals b) (mkNetwork targets b') tau h) in
    same_shapes h h' /\ (forall l, l ∉ targets -> h' !! l = h !! l).
Proof.
  induction targets as [| tp targets IH]; intros locals h.
  - split; [apply same_shapes_refl | reflexivity].
  - destruct locals as [| lp locals].
    { split; [apply same_shapes_refl | reflexivity]. }
    cbv zeta. rewrite soft_update_cons.
    pose proof (soft_update_round_frame tau tp lp h) as Hround. cbv zeta in Hround.
    match goal with
    | |- context [match ?r with _ => _ end] => destruct r as [[err | []] h1]
    end; simpl in Hround.
    + simpl. destruct Hround as [-> | (old & new & Hold & Hlen & ->)].
      * split; [apply same_shapes_refl | reflexivity].
      * split; [eapply same_shapes_insert; eassumption |].
        intros l Hl. apply lookup_insert_ne. intros ->. apply Hl. left.
    + destruct (IH locals h1) as [Hshape Hframe].
      destruct Hround as [-> | (old & new & Hold & Hlen & ->)].
      * split; [exact Hshape |].
        intros l Hl. apply Hframe. intros Hin. apply Hl. right. exact Hin.
      * split.
        -- eapply same_shapes_trans; [| exact Hshape].
           eapply same_shapes_insert; eassumption.
        -- intros l Hl. rewrite Hframe by (intros Hin; apply Hl; right; exact Hin).
           apply lookup_insert_ne. intros ->. apply Hl. left.
Qed.

(** X8. Whatever the two models and the store, and whether it returns or
    raises half-way, [soft_update] writes to parameters of the target
    model only, creates and removes no tensor, and keeps the length of
    each tensor. *)
Theorem soft_update_writes_targets_only
  (local_model target_model : Network) (tau : Float.t) (h : gmap loc tensor) :
  let h' := snd (DDGP.soft_update local_model target_model tau h) in
  (forall l, l ∉ parameters target_model -> h' !! l = h !! l)
  /\ dom h' = dom h
  /\ (forall l t, h !! l = Some t -> exists t', h' !! l = Some t' /\ length t' = length t).
Proof.
  destruct local_model as [locals b], target_model as [targets b']. cbv zeta.
  destruct (soft_update_frame_lists tau b b' targets locals h) as [Hshape Hframe].
  cbv zeta in Hshape, Hframe. simpl.
  split; [exact Hframe |]. split.
  - apply set_eq. intros l. rewrite !elem_of_dom. specialize (Hshape l).
    destruct (h !! l), (_ !! l); try tauto; split; intros [? ?]; eauto; discriminate.
  - intros l t Ht. specialize (Hshape l). rewrite Ht in Hshape.
    destruct (_ !! l) as [t' |]; [eauto | contradiction].
Qed.

(** ** Sessions and the parameter store *)

Lemma call_store (lib : Library) (c : DDGP.Call) (a : DDGP.t) (w : World) :
  ReplayBuffer.batch_size (DDGP.memory a) = None ->
  let s' := snd (DDGP.call lib c (a, w)) in
  wiring (fst s') = wiring a
  /\ same_shapes (heap w) (heap (snd s'))
  /\ (is_soft_update c = false -> heap (snd s') = heap w).
Proof.
  intros Hnone.
  destruct c as [st x r st' d | | | st b | | | l tg tau | path i]; cbv zeta.
  - simpl. split; [reflexivity |]. split; [apply same_shapes_refl | reflexivity].
  - simpl. rewrite trigger_learn_without_batch_size by exact Hnone.
    destruct (_ >? _); simpl;
      (split; [reflexivity |]; split; [apply same_shapes_refl | reflexivity]).
  - simpl. rewrite update_counter_effect.
    destruct (_ =? 0); [| destruct (_ =? 0)]; simpl;
      (split; [reflexivity |]; split; [apply same_shapes_refl | reflexivity]).
  - rewrite call_act_state.
    destruct (act_frame lib st b (a, w)) as (_ & Hw & Hh & _). simpl in Hw, Hh.
    rewrite Hw, Hh. split; [reflexivity |]. split; [apply same_shapes_refl | reflexivity].
  - simpl. split; [reflexivity |]. split; [apply same_shapes_refl | reflexivity].
  - simpl. rewrite learn_without_batch_size by exact Hnone. simpl.
    split; [reflexivity |]. split; [apply same_shapes_refl | reflexivity].
  - simpl. unfold DDGP.on_heap, zoom. simpl.
    destruct (soft_update_frame_lists tau (training l) (training tg)
                (parameters tg) (parameters l) (heap w)) as [Hshape _].
    cbv zeta in Hshape. destruct l as [lps lb], tg as [tps tb]. simpl in Hshape.
    destruct (DDGP.soft_update _ _ tau (heap w)) as [r h']. simpl in *.
    split; [reflexivity |]. split; [exact Hshape | discriminate].
  - simpl. destruct (save_frame lib a w path i) as (Ha & Hh & _).
    rewrite Ha, Hh. split; [reflexivity |]. split; [apply same_shapes_refl | reflexivity].
Qed.

Lemma session_store (lib : Library) (calls : list DDGP.Call) :
  forall s : DDGP.t * World,
    invariant s ->
    let s' := DDGP.session lib calls s in
    wiring (fst s') = wiring (fst s)
    /\ same_shapes (heap (snd s)) (heap (snd s'))
    /\ (forallb (fun c => negb (is_soft_update c)) calls = true ->
        heap (snd s') = heap (snd s)).
Proof.
  induction calls as [| c calls IH]; intros [a w] Hinv.
  - cbv zeta. simpl. split; [reflexivity |].
    split; [apply same_shapes_refl | reflexivity].
  - change (DDGP.session lib (c :: calls) (a, w))
      with (DDGP.session lib calls (snd (DDGP.call lib c (a, w)))).
    cbv zeta.
    destruct (IH (snd (DDGP.call lib c (a, w))) (invariant_call lib c (a, w) Hinv))
      as (Hw & Hs & Hh).
    destruct (call_store lib c a w (proj1 Hinv)) as (Hw1 & Hs1 & Hh1).
    cbv zeta in Hw1, Hs1, Hh1. simpl fst. simpl snd.
    split; [rewrite Hw; exact Hw1 |].
    split; [eapply same_shapes_trans; eassumption |].
    simpl. intros Hall. apply andb_prop in Hall as [Hc Hrest].
    rewrite (Hh Hrest). apply Hh1. apply negb_true_iff. exact Hc.
Qed.

(** X9. An agent made by [__init__] never learns: in a session without a
    direct call of [soft_update], whatever the number of [trigger_learn]
    and [learn] calls, every parameter tensor and both optimizers are what
    [__init__] made them. *)
Theorem session_without_soft_update_keeps_parameters
  (lib : Library) (c : DDGP.Config) (w0 w : World) (a : DDGP.t)
  (calls : list DDGP.Call) :
  DDGP.init lib c w0 = (inr a, w) ->
  forallb (fun c => negb (is_soft_update c)) calls = true ->
  let s := DDGP.session lib calls (a, w) in
  heap (snd s) = heap w
  /\ DDGP.actor_optimizer (fst s) = DDGP.actor_optimizer a
  /\ DDGP.critic_optimizer (fst s) = DDGP.critic_optimizer a
  /\ parameters (DDGP.actor_local (fst s)) = parameters (DDGP.actor_local a)
  /\ parameters (DDGP.critic_local (fst s)) = parameters (DDGP.critic_local a).
Proof.
  intros Hinit Hall s.
  destruct (session_store lib calls (a, w) (invariant_init lib c w0 w a Hinit))
    as (Hw & _ & Hh).
  fold s in Hw, Hh. unfold wiring in Hw. simpl in Hw, Hh.
  injection Hw as H1 H2 H3 H4 H5 H6.
  split; [exact (Hh Hall) |]. auto.
Qed.

(** ** The networks made by [__init__] *)

Lemma allocate_allocated (ts : list tensor) :
  forall (h h' : gmap loc tensor) (ls : list loc),
    Torch.allocate ts h = (inr ls, h') -> allocated h ts ls h'.
Proof.
  induction ts as [| t ts IH]; intros h h' ls Halloc; simpl in Halloc.
  - injection Halloc as <- <-. unfold allocated.
    split; [reflexivity |]. split; [constructor |].
    split; [intros l Hl; inversion Hl |]. split; [reflexivity |].
    intros i l Hi. rewrite lookup_nil in Hi. discriminate.
  - unfold bind, get, modify in Halloc. simpl in Halloc.
    destruct (Torch.allocate ts (<[fresh (dom h) := t]> h)) as [[err | ls'] h1] eqn:Hrest;
      [discriminate |].
    injection Halloc as <- <-.
    destruct (IH _ _ _ Hrest) as (Hlen & Hnodup & Hfresh & Hframe & Hvalues).
    assert (Hnew : fresh (dom h) ∉ ls').
    { intros Hin. specialize (Hfresh _ Hin). rewrite lookup_insert_eq in Hfresh.
      discriminate. }
    unfold allocated. split; [simpl; congruence |].
    split; [constructor; assumption |].
    split; [| split].
    + intros l Hl. apply elem_of_cons in Hl as [-> | Hl].
      * apply not_elem_of_dom, is_fresh.
      * specialize (Hfresh _ Hl).
        destruct (decide (fresh (dom h) = l)) as [<- | Hne]; [contradiction |].
        rewrite lookup_insert_ne in Hfresh by exact Hne. exact Hfresh.
    + intros l Hl. rewrite Hframe by (intros Hin; apply Hl; right; exact Hin).
      apply lookup_insert_ne. intros <-. apply Hl. left.
    + intros [| i] l Hi; simpl in Hi.
      * injection Hi as <-. rewrite (Hframe _ Hnew). apply lookup_insert_eq.
      * apply Hvalues. exact Hi.
Qed.

Lemma new_network_allocated (ts : list tensor) (w w' : World) (net : Network) :
  DDGP.new_network ts w = (inr net, w') ->
  allocated (heap w) ts (parameters net) (heap w')
  /\ training net = true
  /\ rng w' = rng w.
Proof.
  unfold DDGP.new_network, bind, zoom, ret.
  destruct (Torch.allocate ts (heap w)) as [[err | ls] h'] eqn:Halloc; [discriminate |].
  intros Heq. injection Heq as <- <-. simpl.
  split; [apply allocate_allocated, Halloc |]. split; reflexivity.
Qed.

(** An allocated parameter is stored, before any later allocation too. *)
Lemma allocated_stored (h h' : gmap loc tensor) (ts : list tensor) (ls : list loc)
  (l : loc) :
  allocated h ts ls h' -> l ∈ ls -> exists t, h' !! l = Some t.
Proof.
  intros (Hlen & _ & _ & _ & Hvalues) Hin.
  apply list_elem_of_lookup in Hin as [i Hi]. rewrite (Hvalues i l Hi).
  apply lookup_lt_is_Some. rewrite <- Hlen. eapply lookup_lt_Some. exact Hi.
Qed.

Lemma allocated_apart (h h' : gmap loc tensor) (ts : list tensor)
  (ls : list loc) (l : loc) :
  allocated h ts ls h' -> (exists t, h !! l = Some t) -> l ∉ ls.
Proof.
  intros (_ & _ & Hfresh & _) [t Ht] Hin. rewrite (Hfresh l Hin) in Ht. discriminate.
Qed.

Lemma allocated_kept (h h' : gmap loc tensor) (ts : list tensor) (ls : list loc)
  (l : loc) (t : tensor) :
  allocated h ts ls h' -> h !! l = Some t -> h' !! l = Some t.
Proof.
  intros Halloc Ht. pose proof Halloc as (_ & _ & Hfresh & Hframe & _).
  rewrite Hframe; [exact Ht |].
  intros Hin. rewrite (Hfresh l Hin) in Ht. discriminate.
Qed.

(** The four allocations of [__init__], in their order. *)
Lemma init_networks (lib : Library) (c : DDGP.Config) (w0 w : World) (a : DDGP.t) :
  DDGP.init lib c w0 = (inr a, w) ->
  let A := Actor lib (DDGP.state_size c) (DDGP.action_size c) (DDGP.random_seed c) in
  let C := Critic lib (DDGP.state_size c) (DDGP.action_size c) (DDGP.random_seed c) in
  exists h1 h2 h3 : gmap loc tensor,
    allocated (heap w0) A (parameters (DDGP.actor_local a)) h1
    /\ allocated h1 A (parameters (DDGP.actor_target a)) h2
    /\ allocated h2 C (parameters (DDGP.critic_local a)) h3
    /\ allocated h3 C (parameters (DDGP.critic_target a)) (heap w)
    /\ rng w = twister lib (DDGP.random_seed c).
Proof.
  unfold DDGP.init, bind, zoom, Random.seed. simpl.
  destruct (DDGP.new_network _ (set_rng _ w0)) as [[e1 | al] w1] eqn:H1; [discriminate |].
  destruct (DDGP.new_network _ w1) as [[e2 | ta] w2] eqn:H2; [discriminate |]. simpl.
  destruct (DDGP.new_network _ w2) as [[e3 | cl] w3] eqn:H3; [discriminate |].
  destruct (DDGP.new_network _ w3) as [[e4 | ct] w4] eqn:H4; [discriminate |]. simpl.
  intros Heq. injection Heq as <- <-. simpl.
  apply new_network_allocated in H1 as (A1 & _ & R1).
  apply new_network_allocated in H2 as (A2 & _ & R2).
  apply new_network_allocated in H3 as (A3 & _ & R3).
  apply new_network_allocated in H4 as (A4 & _ & R4).
  exists (heap w1), (heap w2), (heap w3).
  split; [exact A1 |]. split; [exact A2 |]. split; [exact A3 |].
  split; [exact A4 | reflexivity].
Qed.

(** ** [soft_update] on the agent's own networks *)

Lemma blendable_same_shapes (l t l' t' : Network) (h h' : gmap loc tensor) :
  parameters l' = parameters l -> parameters t' = parameters t ->
  same_shapes h h' -> blendable l t h -> blendable l' t' h'.
Proof.
  unfold blendable. intros -> -> Hshape (Hlen & Hnodup & Hdisj & Halloc).
  split; [exact Hlen |]. split; [exact Hnodup |]. split; [exact Hdisj |].
  intros i tp lp Htp Hlp.
  destruct (Halloc i tp lp Htp Hlp) as (ld & td & Hl & Ht & Hsame).
  pose proof (Hshape lp) as Hsl. pose proof (Hshape tp) as Hst.
  rewrite Hl in Hsl. rewrite Ht in Hst.
  destruct (h' !! lp) as [ld' |]; [| contradiction].
  destruct (h' !! tp) as [td' |]; [| contradiction].
  exists ld', td'. repeat split; congruence.
Qed.

Lemma blendable_runs (l t : Network) (tau : Float.t) (h : gmap loc tensor) :
  blendable l t h ->
  exists h', DDGP.soft_update l t tau h = (inr tt, h') /\ same_shapes h h'.
Proof.
  intros (Hlen & Hnodup & Hdisj & Halloc).
  destruct l as [locals b], t as [targets b']. simpl in *.
  destruct (soft_update_lists tau b b' targets locals h Hlen Hnodup Hdisj Halloc)
    as (h' & Hrun & _).
  exists h'. split; [exact Hrun |].
  pose proof (soft_update_frame_lists tau b b' targets locals h) as [Hshape _].
  cbv zeta in Hshape. rewrite Hrun in Hshape. exact Hshape.
Qed.

Lemma allocated_twice_blendable (h0 h1 h2 h : gmap loc tensor) (ts : list tensor)
  (l t : Network) :
  allocated h0 ts (parameters l) h1 ->
  allocated h1 ts (parameters t) h2 ->
  (forall x v, h2 !! x = Some v -> h !! x = Some v) ->
  blendable l t h.
Proof.
  intros A1 A2 Hkept.
  pose proof A1 as (L1 & N1 & F1 & _ & V1).
  pose proof A2 as (L2 & N2 & F2 & _ & V2).
  split; [congruence |]. split; [exact N2 |]. split.
  - intros x Hx. apply (allocated_apart _ _ _ _ x A2).
    apply (allocated_stored _ _ _ _ x A1 Hx).
  - intros i tp lp Htp Hlp.
    destruct (lookup_lt_is_Some_2 ts i) as [v Hv].
    { rewrite <- L1. eapply lookup_lt_Some. exact Hlp. }
    exists v, v. split; [| split; [| reflexivity]].
    + apply Hkept. eapply allocated_kept; [exact A2 |]. rewrite (V1 i lp Hlp). exact Hv.
    + apply Hkept. rewrite (V2 i tp Htp). exact Hv.
Qed.

Lemma init_blendable (lib : Library) (c : DDGP.Config) (w0 w : World) (a : DDGP.t) :
  DDGP.init lib c w0 = (inr a, w) ->
  blendable (DDGP.actor_local a) (DDGP.actor_target a) (heap w)
  /\ blendable (DDGP.critic_local a) (DDGP.critic_target a) (heap w).
Proof.
  intros Hinit.
  destruct (init_networks lib c w0 w a Hinit) as (h1 & h2 & h3 & A1 & A2 & A3 & A4 & _).
  cbv zeta in A1, A2, A3, A4. split.
  - eapply allocated_twice_blendable; [exact A1 | exact A2 |].
    intros x v Hx. eapply allocated_kept; [exact A4 |].
    eapply allocated_kept; [exact A3 |]. exact Hx.
  - eapply allocated_twice_blendable; [exact A3 | exact A4 |]. auto.
Qed.

(** X11. On an agent made by [__init__], after any session, the two
    networks of each pair still have as many parameters, share none, and
    store tensors of equal shapes; so the two soft updates that end
    [learn], run one after the other with any [tau], raise nothing. *)
Theorem soft_update_runs_on_own_networks
  (lib : Library) (c : DDGP.Config) (w0 w : World) (a : DDGP.t)
  (calls : list DDGP.Call) (tau : Float.t) :
  DDGP.init lib c w0 = (inr a, w) ->
  let s := DDGP.session lib calls (a, w) in
  blendable (DDGP.actor_local (fst s)) (DDGP.actor_target (fst s)) (heap (snd s))
  /\ blendable (DDGP.critic_local (fst s)) (DDGP.critic_target (fst s)) (heap (snd s))
  /\ exists h1 h2,
       DDGP.soft_update (DDGP.critic_local (fst s)) (DDGP.critic_target (fst s)) tau
         (heap (snd s)) = (inr tt, h1)
       /\ DDGP.soft_update (DDGP.actor_local (fst s)) (DDGP.actor_target (fst s)) tau h1
          = (inr tt, h2).
Proof.
  intros Hinit s.
  destruct (init_blendable lib c w0 w a Hinit) as [Ba Bc].
  destruct (session_store lib calls (a, w) (invariant_init lib c w0 w a Hinit))
    as (Hw & Hshape & _).
  fold s in Hw, Hshape. unfold wiring in Hw. simpl in Hw, Hshape.
  injection Hw as P1 P2 P3 P4 _ _.
  assert (Ba' : blendable (DDGP.actor_local (fst s)) (DDGP.actor_target (fst s))
                  (heap (snd s)))
    by (eapply blendable_same_shapes; eassumption).
  assert (Bc' : blendable (DDGP.critic_local (fst s)) (DDGP.critic_target (fst s))
                  (heap (snd s)))
    by (eapply blendable_same_shapes; eassumption).
  split; [exact Ba' |]. split; [exact Bc' |].
  destruct (blendable_runs _ _ tau _ Bc') as (h1 & Hrun1 & Hshape1).
  destruct (blendable_runs (DDGP.actor_local (fst s)) (DDGP.actor_target (fst s)) tau h1)
    as (h2 & Hrun2 & _).
  { eapply blendable_same_shapes; [reflexivity | reflexivity | exact Hshape1 | exact Ba']. }
  exists h1, h2. split; assumption.
Qed.

(** ** What a completed [learn] has done *)


(** ** Checkpoint files *)

Lemma to_int_proper (z : Z) : Z.to_int z <> Decimal.Pos Decimal.Nil
                              /\ Z.to_int z <> Decimal.Neg Decimal.Nil.
Proof.
  destruct z as [| p | p]; simpl; split; try discriminate;
    intros Heq; injection Heq as Heq;
    exact (DecimalPos.Unsigned.to_uint_nonnil p Heq).
Qed.

Lemma str_inj (i j : Z) : str i = str j -> i = j.
Proof.
  unfold str. intros Heq.
  destruct (to_int_proper i) as [Hi Hi'], (to_int_proper j) as [Hj Hj'].
  pose proof (NilZero.isi _ Hi Hi') as Ei. pose proof (NilZero.isi _ Hj Hj') as Ej.
  rewrite Heq, Ej in Ei. injection Ei as Ei.
  rewrite <- (DecimalZ.of_to i), <- (DecimalZ.of_to j), Ei. reflexivity.
Qed.

Lemma append_inj_l (s x y : string) :
  String.append s x = String.append s y -> x = y.
Proof.
  induction s as [| ch s IH]; simpl; intros Heq; [exact Heq |].
  injection Heq as Heq. exact (IH Heq).
Qed.

Lemma length_append (x s : string) :
  String.length (String.append x s) = (String.length x + String.length s)%nat.
Proof. induction x as [| ch x IH]; simpl; [reflexivity | rewrite IH; reflexivity]. Qed.

Lemma append_inj_r (s : string) :
  forall x y : string, String.append x s = String.append y s -> x = y.
Proof.
  intros x y Heq.
  assert (Hlen : String.length x = String.length y).
  { apply (f_equal String.length) in Heq. rewrite !length_append in Heq. lia. }
  revert y Heq Hlen. induction x as [| ch x IH]; intros [| ch' y] Heq Hlen;
    try discriminate; [reflexivity |].
  simpl in Heq, Hlen. injection Heq as -> Heq. f_equal. apply IH; [exact Heq | lia].
Qed.

Lemma path_join_inj (a b1 b2 : string) :
  Os.startswith_sep b1 = Os.startswith_sep b2 ->
  Os.path_join a b1 = Os.path_join a b2 -> b1 = b2.
Proof.
  unfold Os.path_join. intros <-.
  destruct (Os.startswith_sep b1); [auto |].
  destruct (_ || _); intros Heq.
  - exact (append_inj_l _ _ _ Heq).
  - apply append_inj_l in Heq. exact (append_inj_l _ _ _ Heq).
Qed.

Lemma checkpoint_path_inj (a : DDGP.t) (save_path : string) (i j : Z) :
  DDGP.checkpoint_path a save_path (ObjInt i)
  = DDGP.checkpoint_path a save_path (ObjInt j) -> i = j.
Proof.
  unfold DDGP.checkpoint_path. intros Heq.
  apply path_join_inj in Heq.
  - apply append_inj_l in Heq. apply append_inj_l in Heq.
    apply append_inj_r in Heq. exact (str_inj i j Heq).
  - destruct (DDGP.name (DDGP.config a)); reflexivity.
Qed.

(** X13. Checkpoints of different iterations go to different files: for
    integers [i <> j] the two paths differ; so when [save(save_path, i)]
    and then [save(save_path, j)] both return, the file written first
    still holds the first dictionary, and the second file holds the
    second. *)
Theorem save_keeps_other_iterations
  (lib : Library) (a : DDGP.t) (w : World) (save_path : string) (i j : Z)
  (s1 s2 : DDGP.t * World) :
  i <> j ->
  DDGP.save lib save_path (ObjInt i) (a, w) = (inr tt, s1) ->
  DDGP.save lib save_path (ObjInt j) s1 = (inr tt, s2) ->
  DDGP.checkpoint_path a save_path (ObjInt i)
  <> DDGP.checkpoint_path a save_path (ObjInt j)
  /\ files (snd s2) !! DDGP.checkpoint_path a save_path (ObjInt i)
     = Some (DDGP.save_dict a (heap w))
  /\ files (snd s2) !! DDGP.checkpoint_path a save_path (ObjInt j)
     = Some (DDGP.save_dict a (heap w)).
Proof.
  intros Hne Hfirst Hsecond.
  assert (Hpath : DDGP.checkpoint_path a save_path (ObjInt i)
                  <> DDGP.checkpoint_path a save_path (ObjInt j)).
  { intros Heq. apply Hne. exact (checkpoint_path_inj a save_path i j Heq). }
  split; [exact Hpath |].
  rewrite save_effect in Hfirst.
  destruct (torch_save_error lib (files w) _); [discriminate |].
  injection Hfirst as <-.
  rewrite save_effect in Hsecond.
  destruct (torch_save_error lib _ _); [discriminate |].
  injection Hsecond as <-. simpl.
  split.
  - rewrite lookup_insert_ne by (intros Heq; apply Hpath; symmetry; exact Heq).
    apply lookup_insert_eq.
  - apply lookup_insert_eq.
Qed.

(** ** The constructor and Python's generator *)

(** X14. [__init__] re-seeds Python's global generator: whatever its state
    before, after [DDGP(...)] it is the state [random.seed(random_seed)]
    leaves, so the next [random.random()] is the first output of that
    seed. *)
Theorem init_reseeds_generator
  (lib : Library) (c : DDGP.Config) (w0 w : World) (a : DDGP.t) :
  DDGP.init lib c w0 = (inr a, w) ->
  rng w = twister lib (DDGP.random_seed c)
  /\ fst (Random.random (rng w))
     = inr (Random.unit_float (twister lib (DDGP.random_seed c) 0%nat)).
Proof.
  intros Hinit.
  destruct (init_networks lib c w0 w a Hinit) as (_ & _ & _ & _ & _ & _ & _ & Hrng).
  split; [exact Hrng |]. rewrite Hrng. reflexivity.
Qed.

(** ** The range of the exploration noise *)

Lemma unit_float_in_range (k : N) : in_range 0 1 (Random.unit_float k).
Proof.
  unfold Random.unit_float. eexists. split; [reflexivity |].
  assert (Hlt : (k mod Random.resolution < Random.resolution)%N)
    by (apply N.mod_lt; discriminate).
  apply N2Z.inj_lt in Hlt. rewrite resolution_positive in Hlt.
  pose proof (N2Z.is_nonneg (k mod Random.resolution)) as Hnn.
  split.
  - unfold Qle. simpl. lia.
  - unfold Qlt. simpl. lia.
Qed.

Lemma next_floats_in_range (n : nat) (g : Random.Rng) :
  Forall (in_range 0 1) (next_floats n g).
Proof.
  unfold next_floats. apply Forall_forall. intros v Hin.
  apply list_elem_of_In, in_map_iff in Hin. destruct Hin as (i & <- & _).
  apply unit_float_in_range.
Qed.

(** One component of the update, with the default parameters. *)
Lemma noise_step_in_range (x w m : Float.t) :
  in_range 0 (4 # 3) x -> in_range 0 1 w ->
  (exists q : Q, m = Float.Fin q /\ (q == 0)%Q) ->
  in_range 0 (4 # 3)
    (x + (Float.Fin 0.15 * (m - x) + Float.Fin 0.2 * w))%float.
Proof.
  intros (qx & -> & Hx0 & Hx1) (qw & -> & Hw0 & Hw1) (qm & -> & Hm).
  eexists. split; [reflexivity |]. split; lra.
Qed.

Lemma noise_update_in_range :
  forall mus xs ws : list Float.t,
    Forall (fun v => exists q : Q, v = Float.Fin q /\ (q == 0)%Q) mus ->
    Forall (in_range 0 (4 # 3)) xs ->
    Forall (in_range 0 1) ws ->
    Forall (in_range 0 (4 # 3))
      (zip_with Float.add xs
         (zip_with Float.add
            (map (Float.mul (Float.Fin 0.15)) (zip_with Float.sub mus xs))
            (map (Float.mul (Float.Fin 0.2)) ws))).
Proof.
  induction mus as [| m mus IH]; intros xs ws Hm Hx Hw.
  - destruct xs; constructor.
  - destruct xs as [| x xs]; [constructor |].
    destruct ws as [| w ws]; [constructor |].
    apply Forall_cons in Hm as [Hm Hms]. apply Forall_cons in Hx as [Hx Hxs].
    apply Forall_cons in Hw as [Hw Hws].
    simpl. constructor.
    + apply noise_step_in_range; assumption.
    + apply IH; assumption.
Qed.

Lemma sample_default_noise (noise : OUNoise.t) (g : Random.Rng) :
  default_noise noise ->
  exists x,
    OUNoise.sample (noise, g)
    = (inr x, (OUNoise.set_state x noise, skip (length (OUNoise.state noise)) g))
    /\ length x = length (OUNoise.state noise)
    /\ Forall (in_range 0 (4 # 3)) x
    /\ default_noise (OUNoise.set_state x noise).
Proof.
  intros (Ht & Hs & Hlen & Hmu & Hstate).
  pose proof (sample_effect noise g Hlen) as Hrun. cbv zeta in Hrun.
  rewrite Ht, Hs in Hrun.
  eexists. split; [exact Hrun |].
  assert (Hl : length
                 (zip_with Float.add (OUNoise.state noise)
                    (zip_with Float.add
                       (map (Float.mul (Float.Fin 0.15))
                          (zip_with Float.sub (OUNoise.mu noise) (OUNoise.state noise)))
                       (map (Float.mul (Float.Fin 0.2))
                          (next_floats (length (OUNoise.state noise)) g))))
               = length (OUNoise.state noise)).
  { rewrite !length_zip_with, !length_map, length_zip_with.
    unfold next_floats. rewrite length_map, length_seq. lia. }
  assert (Hr : Forall (in_range 0 (4 # 3))
                 (zip_with Float.add (OUNoise.state noise)
                    (zip_with Float.add
                       (map (Float.mul (Float.Fin 0.15))
                          (zip_with Float.sub (OUNoise.mu noise) (OUNoise.state noise)))
                       (map (Float.mul (Float.Fin 0.2))
                          (next_floats (length (OUNoise.state noise)) g))))).
  { apply noise_update_in_range; [exact Hmu | exact Hstate | apply next_floats_in_range]. }
  split; [exact Hl |]. split; [exact Hr |].
  unfold default_noise. simpl.
  split; [exact Ht |]. split; [exact Hs |]. split; [congruence |].
  split; [exact Hmu | exact Hr].
Qed.

Lemma sampled_default_noise (n : nat) (noise : OUNoise.t) (g : Random.Rng) :
  default_noise noise ->
  default_noise (fst (sampled n (noise, g)))
  /\ length (OUNoise.state (fst (sampled n (noise, g)))) = length (OUNoise.state noise).
Proof.
  intros Hd. induction n as [| n [IHd IHl]]; [split; [exact Hd | reflexivity] |].
  unfold sampled in *. simpl.
  destruct (Nat.iter n (fun s => snd (OUNoise.sample s)) (noise, g)) as [noise' g']
    eqn:Hiter. simpl in IHd, IHl.
  destruct (sample_default_noise noise' g' IHd) as (x & Hrun & Hlen & _ & Hd').
  rewrite Hrun. simpl. split; [exact Hd' | congruence].
Qed.

Lemma init_default_noise (twister : Z -> Random.Rng) (size : nat) (seed : Z)
  (g g' : Random.Rng) (noise : OUNoise.t) :
  OUNoise.init twister size seed (Float.Fin 0) (Float.Fin 0.15) (Float.Fin 0.2) g
  = (inr noise, g') ->
  default_noise noise /\ length (OUNoise.state noise) = size.
Proof.
  intros Hinit. injection Hinit as <- _. unfold default_noise. simpl.
  assert (Hzeros : forall n,
            Forall (fun v => exists m : Q, v = Float.Fin m /\ (m == 0)%Q)
              (Numpy.scale (Float.Fin 0) (Numpy.ones n))).
  { induction n as [| n IH]; simpl; constructor; [| exact IH].
    eexists. split; [reflexivity | reflexivity]. }
  split; [| unfold Numpy.scale, Numpy.ones; rewrite length_map, repeat_length; reflexivity].
  split; [reflexivity |]. split; [reflexivity |]. split; [reflexivity |].
  split; [apply Hzeros |].
  eapply Forall_impl; [apply Hzeros |].
  intros v (m & -> & Hm). exists m. split; [reflexivity |]. split; lra.
Qed.

(** X15. With the default parameters ([mu = 0], [theta = 0.15],
    [sigma = 0.2]) the noise never leaves [0, 4/3): for a noise object made
    by [OUNoise(size, seed)], after any number of [sample()] calls the next
    [sample()] raises nothing and returns [size] numbers, each at least 0
    and below 4/3.  No sample is ever negative. *)
Theorem default_noise_stays_in_range
  (twister : Z -> Random.Rng) (size : nat) (seed : Z) (g0 g1 g : Random.Rng)
  (noise : OUNoise.t) (n : nat) :
  OUNoise.init twister size seed (Float.Fin 0) (Float.Fin 0.15) (Float.Fin 0.2) g0
  = (inr noise, g1) ->
  exists x,
    fst (OUNoise.sample (sampled n (noise, g))) = inr x
    /\ length x = size
    /\ Forall (in_range 0 (4 # 3)) x.
Proof.
  intros Hinit.
  destruct (init_default_noise twister size seed g0 g1 noise Hinit) as [Hd Hsize].
  destruct (sampled_default_noise n noise g Hd) as [Hd' Hlen].
  destruct (sampled n (noise, g)) as [noise' g'] eqn:Hs. simpl in Hd', Hlen.
  destruct (sample_default_noise noise' g' Hd') as (x & Hrun & Hl & Hr & _).
  exists x. rewrite Hrun. split; [reflexivity |]. split; [congruence | exact Hr].
Qed.

(** ** The agent's noise, and what it does to the action *)

Lemma init_noise (lib : Library) (c : DDGP.Config) (w0 w : World) (a : DDGP.t) :
  DDGP.init lib c w0 = (inr a, w) ->
  OUNoise.init (twister lib) (DDGP.action_size c) (DDGP.random_seed c)
    (Float.Fin 0) (Float.Fin 0.15) (Float.Fin 0.2) (rng w0)
  = (inr (DDGP.noise a), twister lib (DDGP.random_seed c)).
Proof.
  unfold DDGP.init, bind, zoom, Random.seed. simpl.
  repeat match goal with
         | |- context [DDGP.new_network ?ts ?w] =>
             let net := fresh "net" in
             let w' := fresh "w" in
             let H := fresh "H" in
             destruct (new_network_succeeds ts w) as (net & w' & H); rewrite H; simpl
         end.
  intros Heq. injection Heq as <- _. reflexivity.
Qed.

Lemma reset_default_noise (noise : OUNoise.t) :
  default_noise noise -> default_noise (OUNoise.reset noise).
Proof.
  intros (Ht & Hs & Hlen & Hmu & _). unfold default_noise. simpl.
  split; [exact Ht |]. split; [exact Hs |]. split; [reflexivity |].
  split; [exact Hmu |].
  eapply Forall_impl; [exact Hmu |].
  intros v (m & -> & Hm). exists m. split; [reflexivity |]. split; lra.
Qed.

Lemma act_default_noise (lib : Library) (state : array) (add_noise : bool)
  (a : DDGP.t) (w : World) :
  default_noise (DDGP.noise a) ->
  default_noise (DDGP.noise (fst (snd (DDGP.act lib state add_noise (a, w)))))
  /\ length (OUNoise.state (DDGP.noise (fst (snd (DDGP.act lib state add_noise (a, w))))))
     = length (OUNoise.state (DDGP.noise a)).
Proof.
  intros Hd.
  unfold DDGP.act, bind, DDGP.on_self, modify, get, gets, ret, lift_result. simpl.
  destruct (Actor_forward lib (heap w) _ state) as [err | out]; [split; [exact Hd | reflexivity] |].
  destruct add_noise; [| split; [exact Hd | reflexivity]].
  unfold DDGP.on_noise, zoom. simpl.
  destruct (sample_default_noise (DDGP.noise a) (rng w) Hd) as (x & Hrun & Hlen & _ & Hd').
  rewrite Hrun. simpl.
  destruct (Numpy.iadd out _); simpl; (split; [exact Hd' | exact Hlen]).
Qed.

Lemma call_default_noise (lib : Library) (c : DDGP.Call) (a : DDGP.t) (w : World) :
  ReplayBuffer.batch_size (DDGP.memory a) = None ->
  default_noise (DDGP.noise a) ->
  default_noise (DDGP.noise (fst (snd (DDGP.call lib c (a, w)))))
  /\ length (OUNoise.state (DDGP.noise (fst (snd (DDGP.call lib c (a, w))))))
     = length (OUNoise.state (DDGP.noise a)).
Proof.
  intros Hnone Hd.
  destruct c as [st x r st' d | | | st b | | | l tg tau | path i].
  - split; [exact Hd | reflexivity].
  - simpl. rewrite trigger_learn_without_batch_size by exact Hnone.
    destruct (_ >? _); (split; [exact Hd | reflexivity]).
  - simpl. rewrite update_counter_effect.
    destruct (_ =? 0); [| destruct (_ =? 0)]; (split; [exact Hd | reflexivity]).
  - rewrite call_act_state. apply act_default_noise, Hd.
  - simpl. split; [apply reset_default_noise, Hd |].
    exact (proj1 (proj2 (proj2 Hd))).
  - simpl. rewrite learn_without_batch_size by exact Hnone.
    split; [exact Hd | reflexivity].
  - simpl. rewrite soft_update_bookkeeping. split; [exact Hd | reflexivity].
  - simpl. rewrite (proj1 (save_frame lib a w path i)).
    split; [exact Hd | reflexivity].
Qed.

Lemma session_default_noise (lib : Library) (calls : list DDGP.Call) :
  forall s : DDGP.t * World,
    invariant s ->
    default_noise (DDGP.noise (fst s)) ->
    default_noise (DDGP.noise (fst (DDGP.session lib calls s)))
    /\ length (OUNoise.state (DDGP.noise (fst (DDGP.session lib calls s))))
       = length (OUNoise.state (DDGP.noise (fst s))).
Proof.
  induction calls as [| c calls IH]; intros [a w] Hinv Hd.
  - split; [exact Hd | reflexivity].
  - change (DDGP.session lib (c :: calls) (a, w))
      with (DDGP.session lib calls (snd (DDGP.call lib c (a, w)))).
    destruct (call_default_noise lib c a w (proj1 Hinv) Hd) as [Hd1 Hl1].
    destruct (IH _ (invariant_call lib c (a, w) Hinv) Hd1) as [Hd2 Hl2].
    split; [exact Hd2 | simpl in *; congruence].
Qed.

(** X17. The noise of an agent made by [__init__] never goes below zero:
    after any session its state has [action_size] components, each a
    number at least 0 and below 4/3. *)
Theorem agent_noise_stays_in_range
  (lib : Library) (c : DDGP.Config) (w0 w : World) (a : DDGP.t)
  (calls : list DDGP.Call) :
  DDGP.init lib c w0 = (inr a, w) ->
  let noise := DDGP.noise (fst (DDGP.session lib calls (a, w))) in
  length (OUNoise.state noise) = DDGP.action_size c
  /\ Forall (in_range 0 (4 # 3)) (OUNoise.state noise).
Proof.
  intros Hinit noise.
  destruct (init_default_noise _ _ _ _ _ _ (init_noise lib c w0 w a Hinit)) as [Hd Hsize].
  destruct (session_default_noise lib calls (a, w)
              (invariant_init lib c w0 w a Hinit) Hd) as [Hd' Hl].
  fold noise in Hd', Hl. simpl in Hl.
  split; [congruence | apply Hd'].
Qed.

(** [np.clip(x, -1, 1)] on a finite [x]. *)
Lemma clip_finite (q : Q) :
  exists r : Q,
    Numpy.minimum (Numpy.maximum (Float.Fin q) (Float.Fin (-1))) (Float.Fin 1)
    = Float.Fin r
    /\ ((q <= -1 /\ r == -1) \/ (-1 < q /\ q < 1 /\ r == q) \/ (1 <= q /\ r == 1))%Q.
Proof.
  unfold Numpy.minimum, Numpy.maximum. simpl.
  destruct (-1 ?= q)%Q eqn:Hlo; simpl.
  - apply Qeq_alt in Hlo. exists (-1)%Q. split; [reflexivity |].
    left. split; [lra | reflexivity].
  - apply Qlt_alt in Hlo.
    destruct (q ?= 1)%Q eqn:Hhi.
    + apply Qeq_alt in Hhi. exists 1%Q. split; [reflexivity |].
      right. right. split; [lra | reflexivity].
    + apply Qlt_alt in Hhi. exists q. split; [reflexivity |]. right. left.
      split; [exact Hlo |]. split; [exact Hhi | reflexivity].
    + apply Qgt_alt in Hhi. exists 1%Q. split; [reflexivity |].
      right. right. split; [lra | reflexivity].
  - apply Qgt_alt in Hlo. exists (-1)%Q. split; [reflexivity |].
    left. split; [lra | reflexivity].
Qed.

(** Adding a number that is not negative does not lower the clipped value. *)
Lemma clip_after_push (x y : Float.t) (hi : Q) :
  in_range 0 hi y ->
  Float.isnan (Numpy.minimum (Numpy.maximum x (Float.Fin (-1))) (Float.Fin 1)) = false ->
  Float.leb
    (Numpy.minimum (Numpy.maximum x (Float.Fin (-1))) (Float.Fin 1))
    (Numpy.minimum (Numpy.maximum (x + y)%float (Float.Fin (-1))) (Float.Fin 1))
  = true.
Proof.
  intros (qy & -> & Hy & _).
  destruct x as [| | q |]; simpl; try reflexivity; [discriminate |].
  intros _.
  destruct (clip_finite q) as (r & -> & Hr).
  destruct (clip_finite (q + qy)) as (r' & -> & Hr').
  apply leb_Fin.
  destruct Hr as [[? ?] | [(? & ? & ?) | [? ?]]];
    destruct Hr' as [[? ?] | [(? & ? & ?) | [? ?]]]; lra.
Qed.

Lemma iadd_pushes (action ys noisy : array) (hi : Q) :
  Forall (in_range 0 hi) ys ->
  Numpy.iadd action ys = inr noisy ->
  Forall2 (fun x v => exists y, in_range 0 hi y /\ v = (x + y)%float) action noisy.
Proof.
  unfold Numpy.iadd. intros Hys.
  destruct (Nat.eqb_spec (length action) (length ys)) as [Hlen | Hne].
  - intros Heq. injection Heq as <-.
    revert ys Hys Hlen. induction action as [| x action IH]; intros [| y ys] Hys Hlen;
      try discriminate; simpl; constructor.
    + apply Forall_cons in Hys as [Hy _]. exists y. auto.
    + apply Forall_cons in Hys as [_ Hys]. apply IH; [exact Hys |].
      simpl in Hlen. lia.
  - destruct ys as [| y [| z ys]]; try discriminate.
    intros Heq. injection Heq as <-. apply Forall_cons in Hys as [Hy _].
    clear Hne. induction action as [| x action IH]; simpl; constructor; [| exact IH].
    exists y. auto.
Qed.

Lemma act_unfolded (lib : Library) (state : array) (add_noise : bool)
  (a : DDGP.t) (w : World) (out : array) (s' : DDGP.t * World) :
  DDGP.act lib state add_noise (a, w) = (inr out, s') ->
  exists action,
    Actor_forward lib (heap w) (mkNetwork (parameters (DDGP.actor_local a)) false) state
    = inr action
    /\ if add_noise
       then exists sampled noisy,
              fst (OUNoise.sample (DDGP.noise a, rng w)) = inr sampled
              /\ Numpy.iadd action (map (fun x => x * DDGP.exploration a)%float sampled)
                 = inr noisy
              /\ out = Numpy.clip noisy (Float.Fin (-1)) (Float.Fin 1)
       else out = Numpy.clip action (Float.Fin (-1)) (Float.Fin 1).
Proof.
  unfold DDGP.act, bind, DDGP.on_self, modify, get, gets, ret, lift_result. simpl.
  destruct (Actor_forward lib (heap w) _ state) as [err | action]; [discriminate |].
  destruct add_noise.
  - unfold DDGP.on_noise, zoom. simpl.
    destruct (OUNoise.sample _) as [[err | sampled] [n g]]; [discriminate |]. simpl.
    destruct (Numpy.iadd action _) as [err | noisy] eqn:Hadd; [discriminate |].
    intros Heq. injection Heq as <- _.
    exists action. split; [reflexivity |]. exists sampled, noisy. auto.
  - intros Heq. injection Heq as <- _. exists action. auto.
Qed.

(** X18. The exploration is one-sided.  On an agent made by [__init__],
    after any session, if [act(state, add_noise=False)] and
    [act(state, add_noise=True)] both return, they return arrays of the
    same length, and no component that is a number without noise is
    lower with noise: the noise only pushes actions up. *)
Theorem noise_never_lowers_action
  (lib : Library) (c : DDGP.Config) (w0 w : World) (a : DDGP.t)
  (calls : list DDGP.Call) (state quiet noisy : array) (s0 s1 : DDGP.t * World) :
  DDGP.init lib c w0 = (inr a, w) ->
  let s := DDGP.session lib calls (a, w) in
  DDGP.act lib state false s = (inr quiet, s0) ->
  DDGP.act lib state true s = (inr noisy, s1) ->
  Forall2 (fun v0 v1 => Float.isnan v0 = false -> Float.leb v0 v1 = true) quiet noisy.
Proof.
  intros Hinit s Hquiet Hnoisy.
  pose proof (invariant_session lib calls (a, w) (invariant_init lib c w0 w a Hinit))
    as (_ & _ & qe & He & Hpos & Hle1).
  destruct (init_default_noise _ _ _ _ _ _ (init_noise lib c w0 w a Hinit)) as [Hd _].
  destruct (session_default_noise lib calls (a, w)
              (invariant_init lib c w0 w a Hinit) Hd) as [Hd' _].
  fold s in He, Hd'. destruct s as [a1 w1]. simpl in He, Hd'.
  apply act_unfolded in Hquiet as (action & Hforward & ->).
  apply act_unfolded in Hnoisy as (action' & Hforward' & sampled & pushed & Hs & Hadd & ->).
  rewrite Hforward in Hforward'. injection Hforward' as <-.
  destruct (sample_default_noise (DDGP.noise a1) (rng w1) Hd') as (x & Hrun & _ & Hr & _).
  rewrite Hrun in Hs. injection Hs as <-.
  assert (Hys : Forall (in_range 0 (4 # 3))
                  (map (fun v => v * DDGP.exploration a1)%float x)).
  { rewrite He. apply Forall_map. eapply Forall_impl; [exact Hr |].
    intros v (q & -> & Hq0 & Hq1). eexists. split; [reflexivity |]. split; nra. }
  pose proof (iadd_pushes action _ pushed (4 # 3) Hys Hadd) as Hpush.
  unfold Numpy.clip. clear -Hpush.
  induction Hpush as [| x0 v action pushed (y & Hy & ->) _ IH]; simpl; constructor.
  - apply (clip_after_push x0 y (4 # 3) Hy).
  - exact IH.
Qed.

(** ** The sampling that [sample] is written to do *)

(** X16. On a buffer whose [batch_size] attribute a caller has set to [k],
    a [sample()] that returns gives five stacks of [k] rows each, the rows
    being the fields of [k] experiences drawn from the buffer without
    replacement: together with some remainder they are a rearrangement of
    the buffer's contents. *)
Theorem sample_draws_without_replacement
  (rb : ReplayBuffer.t) (k : Z) (g g' : Random.Rng) (batch : Batch) :
  ReplayBuffer.batch_size rb = Some k ->
  ReplayBuffer.sample rb g = (inr batch, g') ->
  exists xs rest : list Experience,
    xs ++ rest ≡ₚ Deque.items (ReplayBuffer.memory rb)
    /\ Z.of_nat (length xs) = k
    /\ states batch = map state xs
    /\ actions batch = map action xs
    /\ rewards batch = map (fun e => [reward e]) xs
    /\ next_states batch = map next_state xs
    /\ dones batch = map (fun e => [ReplayBuffer.uint8 (done e)]) xs.
Proof. exact (sample_with_batch_size rb k g g' batch). Qed.

(** ** The further properties at work *)

Lemma replay_buffer_holds_latest_witness :
  ReplayBuffer.init (twister Example.lib) 2 7 (rng Example.world)
  = (inr (ReplayBuffer.mk (Deque.new 2) None), twister Example.lib 7)
  /\ Deque.items
       (ReplayBuffer.memory
          (ReplayBuffer.add_all (ReplayBuffer.mk (Deque.new 2) None)
             [Example.e1; Example.e2; Example.e3]))
     = [Example.e2; Example.e3].
Proof.
  split; [exact example_buffer_init |].
  exact (proj1 (replay_buffer_holds_latest
                  (twister Example.lib) 2 7 (rng Example.world) (twister Example.lib 7)
                  (ReplayBuffer.mk (Deque.new 2) None)
                  [Example.e1; Example.e2; Example.e3] example_buffer_init)).
Defined.

Lemma agent_memory_holds_latest_memorized_witness :
  DDGP.init Example.lib Example.config Example.world
  = (inr Example.agent, Example.world1)
  /\ ReplayBuffer.len
       (DDGP.memory (fst (DDGP.session Example.lib Tour.calls
                            (Example.agent, Example.world1))))
     = Nat.min (length (memorized Tour.calls)) (DDGP.buffer_size Example.config).
Proof.
  split; [exact example_init |].
  exact (proj2 (agent_memory_holds_latest_memorized
                  Example.lib Example.config Example.world Example.world1
                  Example.agent Tour.calls example_init)).
Defined.

Lemma update_counter_divides_by_zero_witness :
  DDGP.learn_every (DDGP.config Tour.idle) = 0
  /\ fst (DDGP.update_counter (Tour.idle, Example.world1)) = inl ZeroDivisionError.
Proof.
  split; [reflexivity |].
  rewrite (proj1 (update_counter_divides_by_zero Tour.idle Example.world1 eq_refl)).
  reflexivity.
Defined.

Lemma act_training_mode_witness :
  DDGP.act Example.lib [Float.Fin 3] false (Example.agent, Example.world1)
  = (inr [Float.Fin 1],
     snd (DDGP.act Example.lib [Float.Fin 3] false (Example.agent, Example.world1)))
  /\ training
       (DDGP.actor_local
          (fst (snd (DDGP.act Example.lib [Float.Fin 3] false
                       (Example.agent, Example.world1)))))
     = true.
Proof.
  assert (Hact :
    DDGP.act Example.lib [Float.Fin 3] false (Example.agent, Example.world1)
    = (inr [Float.Fin 1],
       snd (DDGP.act Example.lib [Float.Fin 3] false (Example.agent, Example.world1)))).
  { vm_compute. reflexivity. }
  split; [exact Hact |].
  exact (proj1 (act_training_mode Example.lib [Float.Fin 3] false
                  Example.agent Example.world1) _ _ Hact).
Defined.

Lemma trigger_learn_below_threshold_witness :
  Z.of_nat (ReplayBuffer.len (DDGP.memory Example.agent))
  <= DDGP.batch_size (DDGP.config Example.agent)
  /\ fst (DDGP.trigger_learn Example.lib (Example.agent, Example.world1)) = inr tt.
Proof.
  assert (Hle : Z.of_nat (ReplayBuffer.len (DDGP.memory Example.agent))
                <= DDGP.batch_size (DDGP.config Example.agent)).
  { vm_compute. discriminate. }
  split; [exact Hle |].
  rewrite (trigger_learn_below_threshold Example.lib Example.agent Example.world1 Hle).
  reflexivity.
Defined.

Lemma session_without_soft_update_keeps_parameters_witness :
  DDGP.init Example.lib Example.config Example.world
  = (inr Example.agent, Example.world1)
  /\ forallb (fun c => negb (is_soft_update c)) Tour.calls = true
  /\ heap (snd (DDGP.session Example.lib Tour.calls (Example.agent, Example.world1)))
     = heap Example.world1.
Proof.
  split; [exact example_init |]. split; [reflexivity |].
  exact (proj1 (session_without_soft_update_keeps_parameters
                  Example.lib Example.config Example.world Example.world1
                  Example.agent Tour.calls example_init eq_refl)).
Defined.

Lemma soft_update_runs_on_own_networks_witness :
  DDGP.init Example.lib Example.config Example.world
  = (inr Example.agent, Example.world1)
  /\ blendable
       (DDGP.actor_local (fst (DDGP.session Example.lib Tour.calls
                                 (Example.agent, Example.world1))))
       (DDGP.actor_target (fst (DDGP.session Example.lib Tour.calls
                                  (Example.agent, Example.world1))))
       (heap (snd (DDGP.session Example.lib Tour.calls
                     (Example.agent, Example.world1)))).
Proof.
  split; [exact example_init |].
  exact (proj1 (soft_update_runs_on_own_networks
                  Example.lib Example.config Example.world Example.world1
                  Example.agent Tour.calls (Float.Fin 1e-3) example_init)).
Defined.

Lemma save_keeps_other_iterations_witness :
  3 <> 4
  /\ DDGP.save Example.lib "runs" (ObjInt 3) (Example.agent, Example.world1)
     = (inr tt,
        snd (DDGP.save Example.lib "runs" (ObjInt 3) (Example.agent, Example.world1)))
  /\ DDGP.save Example.lib "runs" (ObjInt 4)
       (snd (DDGP.save Example.lib "runs" (ObjInt 3) (Example.agent, Example.world1)))
     = (inr tt,
        snd (DDGP.save Example.lib "runs" (ObjInt 4)
               (snd (DDGP.save Example.lib "runs" (ObjInt 3)
                       (Example.agent, Example.world1)))))
  /\ files
       (snd (snd (DDGP.save Example.lib "runs" (ObjInt 4)
                    (snd (DDGP.save Example.lib "runs" (ObjInt 3)
                            (Example.agent, Example.world1))))))
     !! DDGP.checkpoint_path Example.agent "runs" (ObjInt 3)
     = Some (DDGP.save_dict Example.agent (heap Example.world1)).
Proof.
  assert (Hne : 3 <> 4) by discriminate.
  assert (Hfirst :
    DDGP.save Example.lib "runs" (ObjInt 3) (Example.agent, Example.world1)
    = (inr tt,
       snd (DDGP.save Example.lib "runs" (ObjInt 3) (Example.agent, Example.world1))))
    by reflexivity.
  assert (Hsecond :
    DDGP.save Example.lib "runs" (ObjInt 4)
      (snd (DDGP.save Example.lib "runs" (ObjInt 3) (Example.agent, Example.world1)))
    = (inr tt,
       snd (DDGP.save Example.lib "runs" (ObjInt 4)
              (snd (DDGP.save Example.lib "runs" (ObjInt 3)
                      (Example.agent, Example.world1))))))
    by reflexivity.
  split; [exact Hne |]. split; [exact Hfirst |]. split; [exact Hsecond |].
  exact (proj1 (proj2 (save_keeps_other_iterations
                         Example.lib Example.agent Example.world1 "runs" 3 4 _ _
                         Hne Hfirst Hsecond))).
Defined.

Lemma init_reseeds_generator_witness :
  DDGP.init Example.lib Example.config Example.world
  = (inr Example.agent, Example.world1)
  /\ rng Example.world1 = twister Example.lib (DDGP.random_seed Example.config).
Proof.
  split; [exact example_init |].
  exact (proj1 (init_reseeds_generator
                  Example.lib Example.config Example.world Example.world1
                  Example.agent example_init)).
Defined.

Lemma default_noise_stays_in_range_witness :
  OUNoise.init (twister Example.lib) 1 7 (Float.Fin 0) (Float.Fin 0.15) (Float.Fin 0.2)
    (rng Example.world)
  = (inr (DDGP.noise Example.agent), twister Example.lib 7)
  /\ exists x,
       fst (OUNoise.sample (sampled 5 (DDGP.noise Example.agent, twister Example.lib 7)))
       = inr x
       /\ length x = 1%nat
       /\ Forall (in_range 0 (4 # 3)) x.
Proof.
  assert (Hinit :
    OUNoise.init (twister Example.lib) 1 7 (Float.Fin 0) (Float.Fin 0.15) (Float.Fin 0.2)
      (rng Example.world)
    = (inr (DDGP.noise Example.agent), twister Example.lib 7)).
  { vm_compute. reflexivity. }
  split; [exact Hinit |].
  exact (default_noise_stays_in_range
           (twister Example.lib) 1 7 (rng Example.world) (twister Example.lib 7)
           (twister Example.lib 7) (DDGP.noise Example.agent) 5 Hinit).
Defined.

Lemma sample_draws_without_replacement_witness :
  ReplayBuffer.batch_size Tour.patched_buffer = Some 1
  /\ exists xs rest : list Experience,
       xs ++ rest ≡ₚ [Example.e1; Example.e2] /\ Z.of_nat (length xs) = 1.
Proof.
  split; [reflexivity |].
  assert (Hrun :
    ReplayBuffer.sample Tour.patched_buffer (twister Example.lib 7)
    = (fst (ReplayBuffer.sample Tour.patched_buffer (twister Example.lib 7)),
       snd (ReplayBuffer.sample Tour.patched_buffer (twister Example.lib 7)))).
  { destruct (ReplayBuffer.sample _ _); reflexivity. }
  assert (Hok :
    fst (ReplayBuffer.sample Tour.patched_buffer (twister Example.lib 7))
    = inr (mkBatch [[Float.Fin 2]] [[Float.Fin (1 # 3)]] [[Float.Fin 1]]
             [[Float.Fin 3]] [[Float.Fin 0]])).
  { vm_compute. reflexivity. }
  rewrite Hok in Hrun.
  destruct (sample_draws_without_replacement Tour.patched_buffer 1 _ _ _ eq_refl Hrun)
    as (xs & rest & Hperm & Hlen & _).
  exists xs, rest. split; [exact Hperm | exact Hlen].
Defined.

Lemma agent_noise_stays_in_range_witness :
  DDGP.init Example.lib Example.config Example.world
  = (inr Example.agent, Example.world1)
  /\ Forall (in_range 0 (4 # 3))
       (OUNoise.state
          (DDGP.noise (fst (DDGP.session Example.lib Tour.calls
                              (Example.agent, Example.world1))))).
Proof.
  split; [exact example_init |].
  exact (proj2 (agent_noise_stays_in_range
                  Example.lib Example.config Example.world Example.world1
                  Example.agent Tour.calls example_init)).
Defined.

Lemma noise_never_lowers_action_witness :
  DDGP.init Example.lib Example.config Example.world
  = (inr Example.agent, Example.world1)
  /\ DDGP.act Example.lib [Float.Fin (1 # 2)] false
       (DDGP.session Example.lib Example.calls (Example.agent, Example.world1))
     = (inr [Float.Fin (1 # 4)],
        snd (DDGP.act Example.lib [Float.Fin (1 # 2)] false
               (DDGP.session Example.lib Example.calls (Example.agent, Example.world1))))
  /\ exists noisy,
       fst (DDGP.act Example.lib [Float.Fin (1 # 2)] true
              (DDGP.session Example.lib Example.calls (Example.agent, Example.world1)))
       = inr noisy
       /\ Forall2 (fun v0 v1 => Float.isnan v0 = false -> Float.leb v0 v1 = true)
            [Float.Fin (1 # 4)] noisy.
Proof.
  assert (Hquiet :
    DDGP.act Example.lib [Float.Fin (1 # 2)] false
      (DDGP.session Example.lib Example.calls (Example.agent, Example.world1))
    = (inr [Float.Fin (1 # 4)],
       snd (DDGP.act Example.lib [Float.Fin (1 # 2)] false
              (DDGP.session Example.lib Example.calls (Example.agent, Example.world1))))).
  { vm_compute. reflexivity. }
  split; [exact example_init |]. split; [exact Hquiet |].
  destruct (DDGP.act Example.lib [Float.Fin (1 # 2)] true
              (DDGP.session Example.lib Example.calls (Example.agent, Example.world1)))
    as [[err | noisy] s1] eqn:Hnoisy.
  - exfalso. revert Hnoisy. vm_compute. discriminate.
  - exists noisy. split; [reflexivity |].
    exact (noise_never_lowers_action
             Example.lib Example.config Example.world Example.world1 Example.agent
             Example.calls [Float.Fin (1 # 2)] [Float.Fin (1 # 4)] noisy _ s1
             example_init Hquiet Hnoisy).
Defined.

